(** * qtrader: market data loader ([qtrader/envs/data_loader.py])

    A shallow embedding of the [Finance] and [VAR] wrappers and of the
    pandas operations they are built from, over exact rational arithmetic.

    - a table cell is an extended rational ([Num], [NaN], [PInf], [NInf]):
      the float values of pandas without rounding;
    - a [DataFrame] is stored by column, with its date index;
    - effects (the logger, the calls to the VAR simulator, exceptions) are
      threaded through a small log-and-exception monad [M];
    - the collaborators that are not part of the module ([quandl.get],
      [pd.read_csv], [clean], [_VAR]) are fields of a [World]. *)

From Stdlib Require Import ZArith QArith Qcanon List String Bool Lia Sorted.
Import ListNotations.

Open Scope Z_scope.

(** ** Cells: float values, exactly *)

Inductive cell : Type :=
| Num (q : Qc)
| NaN
| PInf
| NInf.

Definition Qc_eqb (x y : Qc) : bool := Qeq_bool x y.
Definition Qc_ltb (x y : Qc) : bool :=
  match (x ?= y)%Qc with Lt => true | _ => false end.

Definition c0 : Qc := Q2Qc 0.
Definition c1 : Qc := Q2Qc 1.

Definition isna (c : cell) : bool :=
  match c with NaN => true | _ => false end.

Definition cell_opp (a : cell) : cell :=
  match a with
  | Num x => Num (- x)%Qc
  | NaN => NaN
  | PInf => NInf
  | NInf => PInf
  end.

Definition cell_add (a b : cell) : cell :=
  match a, b with
  | NaN, _ | _, NaN => NaN
  | Num x, Num y => Num (x + y)%Qc
  | PInf, NInf | NInf, PInf => NaN
  | PInf, _ | _, PInf => PInf
  | NInf, _ | _, NInf => NInf
  end.

Definition cell_sub (a b : cell) : cell := cell_add a (cell_opp b).

(** The infinity whose sign is that of [x] times the sign [pos]; [NaN] when
    [x] is zero (inf * 0). *)
Definition inf_signed (pos : bool) (x : Qc) : cell :=
  if Qc_eqb x c0 then NaN
  else if Bool.eqb pos (Qc_ltb c0 x) then PInf else NInf.

Definition cell_mul (a b : cell) : cell :=
  match a, b with
  | NaN, _ | _, NaN => NaN
  | Num x, Num y => Num (x * y)%Qc
  | PInf, Num y | Num y, PInf => inf_signed true y
  | NInf, Num y | Num y, NInf => inf_signed false y
  | PInf, PInf | NInf, NInf => PInf
  | PInf, NInf | NInf, PInf => NInf
  end.

(** Division: x / 0 is an infinity of the sign of x, 0 / 0 is NaN (zero is
    taken as positive zero), finite / inf is 0, inf / inf is NaN. *)
Definition cell_div (a b : cell) : cell :=
  match a, b with
  | NaN, _ | _, NaN => NaN
  | Num x, Num y =>
      if Qc_eqb y c0 then inf_signed true x else Num (x / y)%Qc
  | Num _, (PInf | NInf) => Num c0
  | (PInf | NInf), (PInf | NInf) => NaN
  | PInf, Num y => if Qc_ltb y c0 then NInf else PInf
  | NInf, Num y => if Qc_ltb y c0 then PInf else NInf
  end.


Definition cell_one : cell := Num c1.

(** ** Columns *)

(** [fillna(method='pad')]: a missing value takes the last valid value
    before it; leading missing values stay missing. *)
Fixpoint ffill_from (prev : cell) (l : list cell) : list cell :=
  match l with
  | [] => []
  | x :: l' =>
      let y := if isna x then prev else x in
      y :: ffill_from y l'
  end.

Definition ffill (l : list cell) : list cell := ffill_from NaN l.

(** [shift(1)]: every value moves one row down, the first row is NaN and
    the last value falls off. *)
Definition shift1 (l : list cell) : list cell :=
  match l with
  | [] => []
  | _ :: _ => NaN :: removelast l
  end.

Fixpoint map2 {A B C : Type} (f : A -> B -> C) (l : list A) (m : list B)
  : list C :=
  match l, m with
  | x :: l', y :: m' => f x y :: map2 f l' m'
  | _, _ => []
  end.

(** [pct_change()] with its defaults (periods=1, fill_method='pad'):
    [data = fillna(pad); data / data.shift(1) - 1]. *)
Definition pct_change (l : list cell) : list cell :=
  let data := ffill l in
  map (fun c => cell_sub c cell_one) (map2 cell_div data (shift1 data)).

(** [x + 1], elementwise. *)
Definition add1 (l : list cell) : list cell :=
  map (fun c => cell_add c cell_one) l.

(** [cumprod()] with its default skipna=True: a missing input is skipped by
    the running product and stays missing in the output. *)
Fixpoint cumprod_from (acc : cell) (l : list cell) : list cell :=
  match l with
  | [] => []
  | x :: l' =>
      if isna x then NaN :: cumprod_from acc l'
      else let acc' := cell_mul acc x in acc' :: cumprod_from acc' l'
  end.

Definition cumprod (l : list cell) : list cell := cumprod_from cell_one l.

(** ** Tables *)

(** A date is a day number; day 0 is a Monday, so [d mod 7] is the weekday
    (0 = Monday ... 6 = Sunday). *)
Definition Date : Type := Z.

(** A date-indexed series, e.g. one column of a provider's answer. *)
Definition Series : Type := list (Date * cell).

(** A table, by column. [datetime_index] is false for the default index of
    an empty [pd.DataFrame({})], the only index here that is not made of
    dates. *)
Record DataFrame : Type := mkDF {
  datetime_index : bool;
  index : list Date;
  columns : list (string * list cell)
}.

Definition nrows (df : DataFrame) : nat := List.length (index df).
Definition colnames (df : DataFrame) : list string := map fst (columns df).

Definition map_columns (f : list cell -> list cell) (df : DataFrame)
  : DataFrame :=
  mkDF (datetime_index df) (index df)
       (map (fun nc => (fst nc, f (snd nc))) (columns df)).

(** Stable insertion sort of keyed rows, ascending. *)
Fixpoint insert_row {A : Type} (x : Date * A) (l : list (Date * A))
  : list (Date * A) :=
  match l with
  | [] => [x]
  | y :: l' => if fst x <=? fst y then x :: l else y :: insert_row x l'
  end.

Definition sort_rows {A : Type} (l : list (Date * A)) : list (Date * A) :=
  fold_right insert_row [] l.

(** [df.sort_index(ascending=True)] *)
Definition sort_index (df : DataFrame) : DataFrame :=
  mkDF (datetime_index df)
       (map fst (sort_rows (combine (index df) (index df))))
       (map (fun nc => (fst nc, map snd (sort_rows (combine (index df) (snd nc)))))
            (columns df)).

(** [start:end] as a label slice: both bounds inclusive, a missing bound
    open. *)
Definition in_range (start_date end_date : option Date) (d : Date) : bool :=
  match start_date with Some s => s <=? d | None => true end
  && match end_date with Some e => d <=? e | None => true end.

(** [df.loc[start_date:end_date]] on a sorted date index. *)
Definition loc_slice (df : DataFrame) (start_date end_date : option Date)
  : DataFrame :=
  let keep := in_range start_date end_date in
  mkDF (datetime_index df)
       (filter keep (index df))
       (map (fun nc =>
               (fst nc,
                map snd (filter (fun r => keep (fst r))
                                (combine (index df) (snd nc)))))
            (columns df)).

(** [df[names]]: the columns called [names], in the order of [names]. *)
Definition select_columns (df : DataFrame) (names : list string)
  : DataFrame :=
  mkDF (datetime_index df) (index df)
       (flat_map (fun n => filter (fun nc => String.eqb (fst nc) n) (columns df))
                 names).

(** [df.pct_change()], [df[1:]], [df + 1], [df.cumprod()] *)
Definition df_pct_change : DataFrame -> DataFrame := map_columns pct_change.

Definition df_tail (df : DataFrame) : DataFrame :=
  mkDF (datetime_index df) (tl (index df))
       (map (fun nc => (fst nc, tl (snd nc))) (columns df)).

Definition df_add1 : DataFrame -> DataFrame := map_columns add1.
Definition df_cumprod : DataFrame -> DataFrame := map_columns cumprod.

(** *** Building a table from a dict of series *)

Definition dict : Type := list (string * Series).

(** [data[k] = v]: a new key goes last, a known key keeps its place. *)
Fixpoint dict_set (k : string) (v : Series) (d : dict) : dict :=
  match d with
  | [] => [(k, v)]
  | (k', v') :: d' =>
      if String.eqb k' k then (k, v) :: d' else (k', v') :: dict_set k v d'
  end.

Fixpoint series_get (d : Date) (s : Series) : cell :=
  match s with
  | [] => NaN
  | (d', c) :: s' => if d' =? d then c else series_get d s'
  end.

Fixpoint dedup (l : list Date) : list Date :=
  match l with
  | [] => []
  | d :: l' => d :: filter (fun d' => negb (d' =? d)) (dedup l')
  end.

(** [pd.DataFrame(data)]: the index is the union of the series' dates and
    every series is aligned on it, NaN where it has no value. An empty dict
    gives the empty table with the default, non-date index. (The order in
    which pandas leaves the union does not matter: [sort_index] comes
    next. Provider series have one value per date.) *)
Definition DataFrame_of_dict (data : dict) : DataFrame :=
  match data with
  | [] => mkDF false [] []
  | _ =>
      let idx := dedup (flat_map (fun ks => map fst (snd ks)) data) in
      mkDF true idx
           (map (fun ks => (fst ks, map (fun d => series_get d (snd ks)) idx))
                data)
  end.

(** *** Resampling *)

(** The resampling frequencies modelled: business day, calendar day, week
    (ending on Sunday). *)
Inductive Freq : Type := FreqB | FreqD | FreqW.

Definition weekday (d : Date) : Z := d mod 7.

(** The label of the period that contains [d]. *)
Definition bin_label (f : Freq) (d : Date) : Date :=
  match f with
  | FreqD => d
  | FreqB => if 5 <=? weekday d then d - (weekday d - 4) else d
  | FreqW => d + (6 - weekday d)
  end.

Definition next_label (f : Freq) (l : Date) : Date :=
  match f with
  | FreqD => l + 1
  | FreqB => if weekday l =? 4 then l + 3 else l + 1
  | FreqW => l + 7
  end.

Fixpoint labels_from (fuel : nat) (f : Freq) (l last_label : Date)
  : list Date :=
  match fuel with
  | O => []
  | S n =>
      if l <=? last_label
      then l :: labels_from n f (next_label f l) last_label
      else []
  end.

(** All period labels from the period of the first date to the period of
    the last one, empty periods included. *)
Definition period_labels (f : Freq) (idx : list Date) : list Date :=
  match idx with
  | [] => []
  | d0 :: _ =>
      let lo := bin_label f d0 in
      let hi := bin_label f (last idx d0) in
      labels_from (Z.to_nat (hi - lo + 1)) f lo hi
  end.

(** The last valid value of a period, NaN if it has none. *)
Fixpoint last_valid (acc : cell) (l : list cell) : cell :=
  match l with
  | [] => acc
  | x :: l' => last_valid (if isna x then acc else x) l'
  end.

Definition last_in_period (f : Freq) (lbl : Date) (rows : Series) : cell :=
  last_valid NaN
    (map snd (filter (fun r => bin_label f (fst r) =? lbl) rows)).

(** ** Exceptions, the log and the monad *)

Inductive exn : Type :=
| TypeError
| KeyError
| ValueError
| DataUnavailable
| ModelFitError
| OtherError (msg : string).

Inductive result (A : Type) : Type :=
| Ok (a : A)
| Raise (e : exn).
Arguments Ok {A} a.
Arguments Raise {A} e.

(** What a run leaves behind: the warnings given to the logger and the
    calls made to the VAR simulator, in order. *)
Inductive event : Type :=
| LogWarn (msg : string)
| CallVAR (order : Z).

Definition M (A : Type) : Type := list event -> result A * list event.

Definition ret {A : Type} (a : A) : M A := fun log => (Ok a, log).

Definition raise {A : Type} (e : exn) : M A := fun log => (Raise e, log).

Definition bind {A B : Type} (m : M A) (k : A -> M B) : M B :=
  fun log =>
    match m log with
    | (Ok a, log') => k a log'
    | (Raise e, log') => (Raise e, log')
    end.

Definition lift {A : Type} (r : result A) : M A := fun log => (r, log).

Definition emit (ev : event) : M unit := fun log => (Ok tt, log ++ [ev]).

(** [try: m  except: h] with a bare [except]. *)
Definition try_except {A : Type} (m : M A) (h : M A) : M A :=
  fun log =>
    match m log with
    | (Ok a, log') => (Ok a, log')
    | (Raise _, log') => h log'
    end.

Notation "x <- m ;; k" := (bind m (fun x => k))
  (at level 61, m at next level, right associativity).
Notation "m ;;; k" := (bind m (fun _ => k))
  (at level 61, right associativity).

(** [df.resample(freq).last()]: only a date index can be resampled. *)
Definition resample_last (f : Freq) (df : DataFrame) : M DataFrame :=
  if datetime_index df then
    let lbls := period_labels f (index df) in
    ret (mkDF true lbls
           (map (fun nc =>
                   (fst nc,
                    map (fun l =>
                           last_in_period f l (combine (index df) (snd nc)))
                        lbls))
                (columns df)))
  else raise TypeError.

(** [df[name]] for one column name. *)
Definition getitem (df : DataFrame) (name : string) : M Series :=
  match find (fun nc => String.eqb (fst nc) name) (columns df) with
  | Some nc => ret (combine (index df) (snd nc))
  | None => raise KeyError
  end.

(** ** The collaborators *)

(** The fitted model; only its parameter table is used. *)
Record Model : Type := mkModel { params : DataFrame }.

(** What the module imports and calls but does not define:
    - [quandl_get dataset start_date end_date] is [quandl.get];
    - [read_csv root] is [pd.read_csv(root, index_col='Date',
      parse_dates=True)];
    - [clean] is [qtrader.utils.pandas.clean];
    - [_VAR df order] is [qtrader.simulation.VAR(df, order, True)], which
      returns the simulated table and the fitted model.
    Each of them may raise. *)
Record World : Type := mkWorld {
  quandl_get : string -> option Date -> option Date -> result DataFrame;
  read_csv : string -> result DataFrame;
  clean : DataFrame -> result DataFrame;
  _VAR : DataFrame -> Z -> result (DataFrame * Model)
}.

(** ** class Finance *)

Module Finance.

Definition _col : string := "Adj. Close"%string.

(** [_get]: [quandl.get] under a bare [except] that warns and returns
    [None]. *)
Definition _get (w : World) (ticker : string)
           (start_date end_date : option Date) : M (option DataFrame) :=
  try_except
    (df <- lift (quandl_get w ("WIKI/" ++ ticker)%string start_date end_date) ;;
     ret (Some df))
    (emit (LogWarn ("failed to fetch market data for " ++ ticker)%string) ;;;
     ret None).

(** [_csv]: the cached table, sorted by date, restricted to the requested
    tickers it has. *)
Definition _csv (w : World) (root : string) (tickers : list string)
  : M DataFrame :=
  raw <- lift (read_csv w root) ;;
  let df := sort_index raw in
  let union :=
    filter (fun ticker => existsb (String.eqb ticker) (colnames df)) tickers in
  ret (select_columns df union).

(** The loop of [Prices] over the tickers, filling the dict [data]. *)
Fixpoint fetch_all (w : World) (tickers : list string)
         (start_date end_date : option Date) (data : dict) : M dict :=
  match tickers with
  | [] => ret data
  | ticker :: rest =>
      tmp_df <- _get w ticker start_date end_date ;;
      match tmp_df with
      | Some df =>
          col <- getitem df _col ;;
          fetch_all w rest start_date end_date (dict_set ticker col data)
      | None => fetch_all w rest start_date end_date data
      end
  end.

Definition Prices (w : World) (tickers : list string)
           (start_date end_date : option Date) (freq : Freq)
           (csv : option string) : M DataFrame :=
  match csv with
  | Some root =>
      df <- _csv w root tickers ;;
      ret (loc_slice df start_date end_date)
  | None =>
      data <- fetch_all w tickers start_date end_date [] ;;
      let df := DataFrame_of_dict data in
      resample_last freq (sort_index df)
  end.

Definition Returns (w : World) (tickers : list string)
           (start_date end_date : option Date) (freq : Freq)
           (csv : option string) : M DataFrame :=
  match csv with
  | Some root =>
      df <- _csv w root tickers ;;
      ret (loc_slice df start_date end_date)
  | None =>
      prices <- Prices w tickers start_date end_date freq None ;;
      ret (df_tail (df_pct_change prices))
  end.

End Finance.

(** ** class VAR *)

Module VAR.

(** What [Returns] and [Prices] return: the table, or the pair of the
    table and the model parameters when [return_params] is set. *)
Definition output (return_params : bool) : Type :=
  if return_params then (DataFrame * DataFrame)%type else DataFrame.

Definition pack (return_params : bool) (df : DataFrame) (p : DataFrame)
  : output return_params :=
  match return_params with
  | true => (df, p)
  | false => df
  end.

Definition table {return_params : bool}
  : output return_params -> DataFrame :=
  match return_params with
  | true => fun o => fst o
  | false => fun o => o
  end.

Definition Returns (w : World) (tickers : list string)
           (start_date end_date : option Date) (freq : Freq)
           (csv : option string) (model_order : Z) (return_params : bool)
  : M (output return_params) :=
  realized <- Finance.Returns w tickers start_date end_date freq csv ;;
  df <- lift (clean w realized) ;;
  emit (CallVAR model_order) ;;;
  fitted <- lift (_VAR w df model_order) ;;
  let (sim_df, model) := fitted in
  ret (pack return_params sim_df (params model)).

Definition Prices (w : World) (tickers : list string)
           (start_date end_date : option Date) (freq : Freq)
           (csv : option string) (model_order : Z) (return_params : bool)
  : M (output return_params) :=
  match return_params with
  | true =>
      rp <- Returns w tickers start_date end_date freq csv model_order true ;;
      let (returns, params) := (rp : DataFrame * DataFrame) in
      cleaned <- lift (clean w returns) ;;
      let prices := df_cumprod (df_add1 cleaned) in
      ret (prices, params)
  | false =>
      returns <-
        Returns w tickers start_date end_date freq csv model_order false ;;
      cleaned <- lift (clean w returns) ;;
      let prices := df_cumprod (df_add1 cleaned) in
      ret prices
  end.

End VAR.

(** ** Table predicates and the reconstruction of the specification *)

Definition all_cells (p : cell -> bool) (df : DataFrame) : bool :=
  forallb (fun nc => forallb p (snd nc)) (columns df).

(** No cell is missing. *)
Definition no_missing : DataFrame -> bool :=
  all_cells (fun c => negb (isna c)).

(** Every cell is a price: a finite, strictly positive number. *)
Definition is_price (c : cell) : bool :=
  match c with
  | Num q => Qc_ltb c0 q
  | _ => false
  end.

Definition positive_prices : DataFrame -> bool := all_cells is_price.


(** The returns of a price column, as [Finance.Returns] derives them. *)
Definition returns_of (prices : list cell) : list cell :=
  tl (pct_change prices).

(** A price column rebuilt from its returns by the cumulative product of
    [VAR.Prices], rescaled to start at [anchor] instead of 1. *)
Definition reconstruct_column (anchor : cell) (rets : list cell)
  : list cell :=
  anchor :: map (cell_mul anchor) (cumprod (add1 rets)).

(** The same for a table: every column of the return table [R] is rebuilt
    from the first price of the matching column of [P]; the first date of
    [P] comes back in front of the index. *)
Definition reconstruct (P R : DataFrame) : DataFrame :=
  mkDF (datetime_index R)
       (firstn 1 (index P) ++ index R)
       (map2 (fun pc rc =>
                (fst rc,
                 match snd pc with
                 | [] => []
                 | p0 :: _ => reconstruct_column p0 (snd rc)
                 end))
             (columns P) (columns R)).

(** Decidable equality of cells, for concrete tables. *)
Definition cell_eqb (a b : cell) : bool :=
  match a, b with
  | Num x, Num y => Qc_eqb x y
  | NaN, NaN | PInf, PInf | NInf, NInf => true
  | _, _ => false
  end.

Fixpoint cells_eqb (l m : list cell) : bool :=
  match l, m with
  | [], [] => true
  | a :: l', b :: m' => cell_eqb a b && cells_eqb l' m'
  | _, _ => false
  end.

(** The percentage changes of [l] after a previous value [prev], one by
    one. *)
Fixpoint changes_from (prev : cell) (l : list cell) : list cell :=
  match l with
  | [] => []
  | y :: l' => cell_sub (cell_div y prev) cell_one :: changes_from y l'
  end.


(** Every column has one cell per row. *)
Definition rectangular (df : DataFrame) : Prop :=
  Forall (fun nc => List.length (snd nc) = nrows df) (columns df).

(** ** The loop of [Finance.Prices], without its effects *)

(** The answer of the provider for a ticker. *)
Definition fetch (w : World) (start_date end_date : option Date)
           (ticker : string) : result DataFrame :=
  quandl_get w ("WIKI/" ++ ticker)%string start_date end_date.

Definition fetch_ok (w : World) (start_date end_date : option Date)
           (ticker : string) : bool :=
  match fetch w start_date end_date ticker with
  | Ok _ => true
  | Raise _ => false
  end.

(** The provider's answers carry the price column. *)
Definition has_price_column (df : DataFrame) : bool :=
  existsb (fun nc => String.eqb (fst nc) Finance._col) (columns df).

Definition provider_ok (w : World) (start_date end_date : option Date)
           (tickers : list string) : Prop :=
  forall ticker df,
    In ticker tickers ->
    fetch w start_date end_date ticker = Ok df ->
    has_price_column df = true.

Definition price_series (df : DataFrame) : Series :=
  match find (fun nc => String.eqb (fst nc) Finance._col) (columns df) with
  | Some nc => combine (index df) (snd nc)
  | None => []
  end.

(** The dict the loop ends with. *)
Fixpoint collected (w : World) (start_date end_date : option Date)
         (tickers : list string) (data : dict) : dict :=
  match tickers with
  | [] => data
  | ticker :: rest =>
      match fetch w start_date end_date ticker with
      | Ok df =>
          collected w start_date end_date rest
                    (dict_set ticker (price_series df) data)
      | Raise _ => collected w start_date end_date rest data
      end
  end.

Definition warning (ticker : string) : event :=
  LogWarn ("failed to fetch market data for " ++ ticker)%string.

(** The warnings the loop gives: one per failed fetch, in order. *)
Definition warnings (w : World) (start_date end_date : option Date)
           (tickers : list string) : list event :=
  map warning
      (filter (fun t => negb (fetch_ok w start_date end_date t)) tickers).

(** ** The cache path, without its effects *)

(** What [_csv(root, tickers).loc[start_date:end_date]] makes of the table
    read from the file. *)
Definition cached (cache : DataFrame) (tickers : list string)
           (start_date end_date : option Date) : DataFrame :=
  loc_slice
    (select_columns
       (sort_index cache)
       (filter (fun ticker =>
                  existsb (String.eqb ticker) (colnames (sort_index cache)))
               tickers))
    start_date end_date.

(** ** Worlds for the examples *)

Definition num (n : Z) (d : positive) : cell := Num (Q2Qc (n # d)).

(** A provider answer: the dates and two of the WIKI columns. *)
Definition wiki_frame (dates : list Date) (close adj_close : list cell)
  : DataFrame :=
  mkDF true dates [("Close"%string, close); ("Adj. Close"%string, adj_close)].

Definition aapl_frame : DataFrame :=
  wiki_frame [0; 1; 2]
             [num 200 1; num 220 1; num 198 1]
             [num 100 1; num 110 1; num 99 1].

Definition msft_frame : DataFrame :=
  wiki_frame [0; 1; 2]
             [num 50 1; num 55 1; num 60 1]
             [num 50 1; num 55 1; num 60 1].

(** The provider knows AAPL and MSFT and raises for anything else; there is
    no cache file; cleaning changes nothing and the simulator echoes its
    input. *)
Definition live_world : World :=
  mkWorld
    (fun dataset _ _ =>
       if String.eqb dataset "WIKI/AAPL" then Ok aapl_frame
       else if String.eqb dataset "WIKI/MSFT" then Ok msft_frame
       else Raise (OtherError "NotFoundError"))
    (fun _ => Raise (OtherError "FileNotFoundError"))
    (fun df => Ok df)
    (fun df _ => Ok (df, mkModel (mkDF false [] []))).

Definition live_prices : DataFrame :=
  mkDF true [0; 1; 2]
       [("AAPL"%string, [num 100 1; num 110 1; num 99 1]);
        ("MSFT"%string, [num 50 1; num 55 1; num 60 1])].

(** A cache file with the columns A and C, its rows not in date order. *)
Definition cache_table : DataFrame :=
  mkDF true [3; 1; 2]
       [("A"%string, [num 13 1; num 11 1; num 12 1]);
        ("C"%string, [num 33 1; num 31 1; num 32 1])].

(** Only the cache file "prices.csv" exists and the provider is down;
    cleaning changes nothing and the simulator echoes its input. *)
Definition cache_world : World :=
  mkWorld
    (fun _ _ _ => Raise (OtherError "ConnectionError"))
    (fun root =>
       if String.eqb root "prices.csv" then Ok cache_table
       else Raise (OtherError "FileNotFoundError"))
    (fun df => Ok df)
    (fun df _ => Ok (df, mkModel (mkDF false [] []))).

(** The simulated returns of the example: one column, 1%, -2%, 3%. *)
Definition sim_returns : DataFrame :=
  mkDF true [0; 1; 2] [("A"%string, [num 1 100; num (-2) 100; num 3 100])].

(** The cache file "returns.csv" holds three rows of returns of A; cleaning
    changes nothing; the simulator answers [sim_returns] and a model
    without parameters. *)
Definition sim_world : World :=
  mkWorld
    (fun _ _ _ => Raise (OtherError "ConnectionError"))
    (fun root =>
       if String.eqb root "returns.csv"
       then Ok (mkDF true [0; 1; 2]
                     [("A"%string, [num 2 100; num 1 100; num (-1) 100])])
       else Raise (OtherError "FileNotFoundError"))
    (fun df => Ok df)
    (fun _ _ => Ok (sim_returns, mkModel (mkDF false [] []))).

(** ** The recurrence of the cumulative product *)

(** [prices] is the scan of [rets]: [prices[0] = 1 + rets[0]] and
    [prices[t] = prices[t-1] * (1 + rets[t])] on the later rows. *)
Definition price_recurrence (rets prices : list cell) : Prop :=
  List.length prices = List.length rets
  /\ forall t,
      (t < List.length rets)%nat ->
      nth t prices NaN
      = match t with
        | O => cell_add cell_one (nth O rets NaN)
        | S t' => cell_mul (nth t' prices NaN) (cell_add cell_one (nth t rets NaN))
        end.

(** ** Further predicates *)


(** ** Finance.SP500 *)

(** A table of text as [pd.read_html] gives it: named columns over the
    default index. The parser renames repeated headers, so the names of a
    table are distinct. *)
Definition TextTable : Type := list (string * list string).

(** The table of constituents once the tickers are its index. *)
Record Listing : Type := mkListing {
  listing_index : list string;
  listing_columns : list (string * list string)
}.

(** [pd.read_html(url, header=0)]: the tables of the page, or an
    exception. *)
Record Web : Type := mkWeb {
  read_html : string -> result (list TextTable)
}.

Definition sp500_url : string :=
  "https://en.wikipedia.org/wiki/List_of_S%26P_500_companies"%string.

(** [tables[0]] *)
Definition first_table (tables : list TextTable) : M TextTable :=
  match tables with
  | t :: _ => ret t
  | [] => raise (OtherError "IndexError")
  end.

(** [df[names]] on a table of text: every name must be a column. *)
Definition select_text (t : TextTable) (names : list string) : M TextTable :=
  if forallb (fun n => existsb (fun nc => String.eqb (fst nc) n) t) names
  then ret (flat_map (fun n => filter (fun nc => String.eqb (fst nc) n) t)
                     names)
  else raise KeyError.

(** [df.set_index(key, inplace=True)]: the column [key] becomes the index
    and leaves the columns. *)
Definition set_index (t : TextTable) (key : string) : M Listing :=
  match find (fun nc => String.eqb (fst nc) key) t with
  | Some nc =>
      ret (mkListing (snd nc)
                     (filter (fun nc' => negb (String.eqb (fst nc') key)) t))
  | None => raise KeyError
  end.

(** What [SP500] returns: the listing, or the listing with the prices and
    the returns of its tickers. *)
Definition SP500_output (return_prices_returns : bool) : Type :=
  if return_prices_returns
  then (Listing * DataFrame * DataFrame)%type
  else Listing.

(** [Finance.SP500(return_prices_returns, **kwargs)], the keyword
    arguments being those of [Finance.Prices]. *)
Definition SP500 (web : Web) (w : World) (return_prices_returns : bool)
           (start_date end_date : option Date) (freq : Freq)
           (csv : option string) : M (SP500_output return_prices_returns) :=
  tables <- lift (read_html web sp500_url) ;;
  page <- first_table tables ;;
  kept <- select_text page ["Ticker symbol"; "Security"; "GICS Sector"]%string ;;
  sp500 <- set_index kept "Ticker symbol" ;;
  match return_prices_returns as b return M (SP500_output b) with
  | true =>
      let tickers := listing_index sp500 in
      prices <- Finance.Prices w tickers start_date end_date freq csv ;;
      let returns := df_tail (df_pct_change prices) in
      ret (sp500, prices, returns)
  | false => ret sp500
  end.

(** A page with one table of two constituents, and a page without the
    sector column. *)
Definition sp500_page : TextTable :=
  [("Ticker symbol"%string, ["AAPL"; "MSFT"]%string);
   ("Security"%string, ["Apple Inc."; "Microsoft Corp."]%string);
   ("SEC filings"%string, ["reports"; "reports"]%string);
   ("GICS Sector"%string,
    ["Information Technology"; "Information Technology"]%string)].

Definition sp500_web : Web :=
  mkWeb (fun _ => Ok [sp500_page]).

Definition broken_web : Web :=
  mkWeb (fun _ => Ok [[("Ticker symbol"%string, ["AAPL"]%string);
                       ("Security"%string, ["Apple Inc."]%string)]]).

(** A provider whose answer for BAD has no 'Adj. Close' column, and which
    raises for every other ticker. *)
Definition bad_world : World :=
  mkWorld
    (fun dataset _ _ =>
       if String.eqb dataset "WIKI/BAD"
       then Ok (mkDF true [0; 1] [("Close"%string, [num 10 1; num 11 1])])
       else Raise (OtherError "NotFoundError"))
    (fun _ => Raise (OtherError "FileNotFoundError"))
    (fun df => Ok df)
    (fun df _ => Ok (df, mkModel (mkDF false [] []))).
(** * Properties *)

(** ** Arithmetic of cells *)

Lemma Qc_eqb_eq (x y : Qc) : Qc_eqb x y = true <-> x = y.
Proof.
  unfold Qc_eqb. rewrite Qeq_bool_iff. split.
  - apply Qc_is_canon.
  - intros ->. reflexivity.
Qed.

Lemma Qc_eqb_neq (x y : Qc) : Qc_eqb x y = false <-> x <> y.
Proof.
  rewrite <- Qc_eqb_eq. destruct (Qc_eqb x y); split; congruence.
Qed.

Lemma Qc_ltb_lt (x y : Qc) : Qc_ltb x y = true <-> (x < y)%Qc.
Proof.
  unfold Qc_ltb, Qclt, Qccompare. rewrite Qlt_alt.
  destruct (this x ?= this y)%Q; split; congruence.
Qed.

Lemma cell_eqb_eq (a b : cell) : cell_eqb a b = true <-> a = b.
Proof.
  destruct a, b; simpl; try (split; congruence).
  rewrite Qc_eqb_eq. split; congruence.
Qed.

Lemma cells_eqb_eq (l m : list cell) : cells_eqb l m = true <-> l = m.
Proof.
  revert m. induction l as [|a l IH]; intros [|b m]; simpl;
    try (split; congruence).
  rewrite andb_true_iff, cell_eqb_eq, IH. split.
  - intros [-> ->]. reflexivity.
  - intros H. injection H as -> ->. auto.
Qed.


Lemma is_price_inv (c : cell) :
  is_price c = true -> exists q, c = Num q /\ (c0 < q)%Qc.
Proof.
  destruct c; simpl; try discriminate.
  intros H. exists q. split; [reflexivity|]. now apply Qc_ltb_lt.
Qed.

Lemma pos_neq0 (q : Qc) : (c0 < q)%Qc -> q <> c0.
Proof.
  intros H E. apply Qclt_not_eq in H. congruence.
Qed.

Lemma cell_div_num (x y : Qc) :
  y <> c0 -> cell_div (Num x) (Num y) = Num (x / y)%Qc.
Proof.
  intros H. simpl. apply Qc_eqb_neq in H. now rewrite H.
Qed.

Lemma cell_mul_one_l (c : cell) : cell_mul cell_one c = c.
Proof.
  destruct c; simpl; try reflexivity.
  f_equal. unfold c1. ring.
Qed.

Lemma cell_add_comm (a b : cell) : cell_add a b = cell_add b a.
Proof.
  destruct a, b; simpl; try reflexivity. f_equal. ring.
Qed.

(** ** Columns: percentage change and cumulative product *)

Lemma ffill_from_valid (prev : cell) (l : list cell) :
  forallb (fun c => negb (isna c)) l = true -> ffill_from prev l = l.
Proof.
  revert prev. induction l as [|x l IH]; intros prev H; simpl in *.
  - reflexivity.
  - apply andb_true_iff in H as [Hx Hl].
    destruct (isna x); [discriminate|]. now rewrite IH.
Qed.

Lemma map2_removelast (x : cell) (l : list cell) :
  map (fun c => cell_sub c cell_one) (map2 cell_div l (removelast (x :: l)))
  = changes_from x l.
Proof.
  revert x. induction l as [|y l IH]; intros x.
  - reflexivity.
  - change (removelast (x :: y :: l)) with (x :: removelast (y :: l)).
    cbn [map2 map changes_from]. now rewrite IH.
Qed.

Lemma returns_of_valid (x : cell) (l : list cell) :
  forallb (fun c => negb (isna c)) (x :: l) = true ->
  returns_of (x :: l) = changes_from x l.
Proof.
  intros H. unfold returns_of, pct_change, ffill.
  rewrite (ffill_from_valid _ _ H).
  change (shift1 (x :: l)) with (NaN :: removelast (x :: l)).
  cbn [map2 map tl]. apply map2_removelast.
Qed.

Lemma length_ffill_from (prev : cell) (l : list cell) :
  List.length (ffill_from prev l) = List.length l.
Proof.
  revert prev. induction l as [|x l IH]; intros prev; simpl; [|rewrite IH];
    reflexivity.
Qed.

Lemma length_shift1 (l : list cell) : List.length (shift1 l) = List.length l.
Proof.
  destruct l as [|x l]; [reflexivity|].
  unfold shift1. cbn [List.length]. f_equal.
  revert x. induction l as [|y l IH]; intros x; [reflexivity|].
  change (removelast (x :: y :: l)) with (x :: removelast (y :: l)).
  cbn [List.length]. now rewrite IH.
Qed.

Lemma length_map2 {A B C : Type} (f : A -> B -> C) (l : list A) (m : list B) :
  List.length l = List.length m -> List.length (map2 f l m) = List.length l.
Proof.
  revert m. induction l as [|a l IH]; intros [|b m] H; simpl in *;
    try congruence.
  f_equal. apply IH. congruence.
Qed.

Lemma length_pct_change (l : list cell) :
  List.length (pct_change l) = List.length l.
Proof.
  unfold pct_change, ffill. rewrite length_map, length_map2.
  - apply length_ffill_from.
  - now rewrite length_shift1.
Qed.

Lemma prices_are_numbers (l : list cell) :
  forallb is_price l = true ->
  exists qs, l = map Num qs /\ Forall (fun q => (c0 < q)%Qc) qs.
Proof.
  induction l as [|c l IH]; simpl; intros H.
  - exists []. split; [reflexivity|constructor].
  - apply andb_true_iff in H as [Hc Hl].
    destruct (is_price_inv c Hc) as (q & -> & Hq).
    destruct (IH Hl) as (qs & -> & Hqs).
    exists (q :: qs). split; [reflexivity|now constructor].
Qed.

Lemma price_not_missing (c : cell) : is_price c = true -> negb (isna c) = true.
Proof. destruct c; simpl; congruence. Qed.

(** The running product of [1 + change], scaled by [p0], walks back through
    the prices. *)
Lemma rebuild_from (p0 a x : Qc) (qs : list Qc) :
  (p0 * a)%Qc = x -> (c0 < x)%Qc -> Forall (fun q => (c0 < q)%Qc) qs ->
  map (cell_mul (Num p0))
      (cumprod_from (Num a) (add1 (changes_from (Num x) (map Num qs))))
  = map Num qs.
Proof.
  intros Hx Hpos Hqs. revert a x Hx Hpos.
  induction Hqs as [|q qs Hq _ IH]; intros a x Hx Hpos.
  - reflexivity.
  - cbn [map changes_from add1].
    rewrite (cell_div_num q x (pos_neq0 x Hpos)).
    cbn [cell_sub cell_opp cell_add cell_one cumprod_from isna cell_mul map].
    assert (E : (p0 * (a * (q / x + - c1 + c1)))%Qc = q).
    { rewrite <- Hx in *. apply pos_neq0 in Hpos. unfold c0, c1 in *.
      assert (p0 <> 0%Qc) by (intros ->; apply Hpos; ring).
      assert (a <> 0%Qc) by (intros ->; apply Hpos; ring).
      field. split; assumption. }
    rewrite E. f_equal.
    apply (IH _ q E Hq).
Qed.

Lemma reconstruct_returns_column (col : list cell) :
  forallb is_price col = true ->
  match col with
  | [] => []
  | p0 :: _ => reconstruct_column p0 (returns_of col)
  end = col.
Proof.
  intros H. destruct col as [|p0 l]; [reflexivity|].
  rewrite returns_of_valid.
  2:{ rewrite forallb_forall in *. intros c Hc.
      apply price_not_missing. auto. }
  destruct (prices_are_numbers _ H) as ([|q qs] & E & Hqs); [discriminate|].
  cbn [map] in E. injection E as -> ->.
  unfold reconstruct_column, cumprod, cell_one. f_equal.
  inversion Hqs; subst.
  apply rebuild_from; [unfold c1; ring|assumption|assumption].
Qed.

(** ** The monad *)

Lemma bind_Ok {A B : Type} (m : M A) (k : A -> M B) (log log' : list event)
      (a : A) :
  m log = (Ok a, log') -> bind m k log = k a log'.
Proof. intros H. unfold bind. now rewrite H. Qed.

Lemma bind_Raise {A B : Type} (m : M A) (k : A -> M B)
      (log log' : list event) (e : exn) :
  m log = (Raise e, log') -> bind m k log = (Raise e, log').
Proof. intros H. unfold bind. now rewrite H. Qed.

(** ** Finance.Returns against Finance.Prices, on the live path *)

Lemma Returns_live_Ok (w : World) (tickers : list string)
      (start_date end_date : option Date) (freq : Freq)
      (log log' : list event) (P : DataFrame) :
  Finance.Prices w tickers start_date end_date freq None log = (Ok P, log') ->
  Finance.Returns w tickers start_date end_date freq None log
  = (Ok (df_tail (df_pct_change P)), log').
Proof.
  intros H. unfold Finance.Returns. now rewrite (bind_Ok _ _ _ _ _ H).
Qed.

Lemma reconstruct_columns (cols : list (string * list cell)) :
  forallb (fun nc => forallb is_price (snd nc)) cols = true ->
  map2 (fun pc rc =>
          (fst rc,
           match snd pc with
           | [] => []
           | p0 :: _ => reconstruct_column p0 (snd rc)
           end))
       cols
       (map (fun nc => (fst nc, tl (snd nc)))
            (map (fun nc => (fst nc, pct_change (snd nc))) cols))
  = cols.
Proof.
  induction cols as [|[n col] cols IH]; intros H; [reflexivity|].
  cbn [forallb snd] in H. apply andb_true_iff in H as [Hcol Hcols].
  cbn [map map2 fst snd]. rewrite (IH Hcols). f_equal. f_equal.
  exact (reconstruct_returns_column col Hcol).
Qed.

Lemma reconstruct_returns (P : DataFrame) :
  positive_prices P = true ->
  reconstruct P (df_tail (df_pct_change P)) = P.
Proof.
  intros H. destruct P as [dt idx cols].
  unfold reconstruct, df_tail, df_pct_change, map_columns. cbn [datetime_index index columns].
  f_equal.
  - now destruct idx.
  - apply reconstruct_columns. exact H.
Qed.

(** C1. Round trip: for a price table [P] with at least two rows, no
    missing value and (as prices are) finite, strictly positive entries,
    the returns [P.pct_change()[1:]] rebuilt by the cumulative product
    anchored to the first prices of [P] give back exactly [P]; and these
    returns are what [Finance.Returns] answers on the live path whenever
    [Finance.Prices] answers [P]. *)
Theorem returns_then_reconstruct_roundtrip (P : DataFrame) :
  (2 <= nrows P)%nat ->
  no_missing P = true ->
  positive_prices P = true ->
  reconstruct P (df_tail (df_pct_change P)) = P
  /\ forall (w : World) (tickers : list string)
            (start_date end_date : option Date) (freq : Freq)
            (log log' : list event),
      Finance.Prices w tickers start_date end_date freq None log
      = (Ok P, log') ->
      exists R,
        Finance.Returns w tickers start_date end_date freq None log
        = (Ok R, log')
        /\ reconstruct P R = P.
Proof.
  intros _ _ Hpos. split; [now apply reconstruct_returns|].
  intros w tickers start_date end_date freq log log' HP.
  exists (df_tail (df_pct_change P)). split.
  - now apply Returns_live_Ok.
  - now apply reconstruct_returns.
Qed.

Lemma returns_then_reconstruct_roundtrip_witness :
  reconstruct live_prices (df_tail (df_pct_change live_prices)) = live_prices
  /\ exists R,
      Finance.Returns live_world ["AAPL"; "MSFT"]%string None None FreqD None []
      = (Ok R, [])
      /\ reconstruct live_prices R = live_prices.
Proof.
  assert (H2 : (2 <= nrows live_prices)%nat) by (vm_compute; lia).
  assert (Hm : no_missing live_prices = true) by (vm_compute; reflexivity).
  assert (Hp : positive_prices live_prices = true)
    by (vm_compute; reflexivity).
  destruct (returns_then_reconstruct_roundtrip live_prices H2 Hm Hp)
    as [Hpure Hlive].
  split; [exact Hpure|].
  apply (Hlive live_world ["AAPL"; "MSFT"]%string None None FreqD [] []).
  vm_compute. reflexivity.
Defined.

(** ** Shapes *)

Lemma resample_last_rectangular (f : Freq) (df P : DataFrame)
      (log log' : list event) :
  resample_last f df log = (Ok P, log') -> rectangular P.
Proof.
  unfold resample_last. destruct (datetime_index df); [|discriminate].
  unfold ret. intros H. injection H as <- _.
  unfold rectangular, nrows. cbn [columns index].
  apply Forall_forall. intros nc Hnc.
  apply in_map_iff in Hnc as (nc0 & <- & _). cbn [snd].
  apply length_map.
Qed.

Lemma Prices_live_rectangular (w : World) (tickers : list string)
      (start_date end_date : option Date) (freq : Freq)
      (log log' : list event) (P : DataFrame) :
  Finance.Prices w tickers start_date end_date freq None log = (Ok P, log') ->
  rectangular P.
Proof.
  unfold Finance.Prices, bind.
  destruct (Finance.fetch_all w tickers start_date end_date [] log)
    as [[data|e] log1]; [|discriminate].
  apply resample_last_rectangular.
Qed.

Lemma length_tl {A : Type} (l : list A) :
  List.length (tl l) = (List.length l - 1)%nat.
Proof. destruct l; simpl; lia. Qed.

(** C6. Shape invariant on the live path: when [Finance.Prices] gives a
    table [P] with at least one row, [Finance.Returns] gives a table with
    [rows(P) - 1] rows (in its index and in every column) and the columns
    of [P], in the same order. *)
Theorem returns_shape
        (w : World) (tickers : list string)
        (start_date end_date : option Date) (freq : Freq)
        (log log' : list event) (P : DataFrame) :
  Finance.Prices w tickers start_date end_date freq None log = (Ok P, log') ->
  (1 <= nrows P)%nat ->
  exists R,
    Finance.Returns w tickers start_date end_date freq None log = (Ok R, log')
    /\ nrows R = (nrows P - 1)%nat
    /\ colnames R = colnames P
    /\ rectangular R.
Proof.
  intros HP _.
  exists (df_tail (df_pct_change P)). split; [now apply Returns_live_Ok|].
  pose proof (Prices_live_rectangular _ _ _ _ _ _ _ _ HP) as Hrect.
  destruct P as [dt idx cols].
  unfold rectangular, nrows, colnames, df_tail, df_pct_change, map_columns in *.
  cbn [index columns] in *.
  split; [apply length_tl|]. split.
  - rewrite !map_map. reflexivity.
  - rewrite map_map. apply Forall_map. cbn [fst snd].
    rewrite length_tl.
    eapply Forall_impl; [|exact Hrect].
    intros nc Hnc. cbn beta in Hnc.
    now rewrite length_tl, length_pct_change, Hnc.
Qed.

Lemma returns_shape_witness :
  exists R,
    Finance.Returns live_world ["AAPL"; "MSFT"]%string None None FreqD None []
    = (Ok R, [])
    /\ nrows R = (nrows live_prices - 1)%nat
    /\ colnames R = colnames live_prices
    /\ rectangular R.
Proof.
  apply (returns_shape
           live_world ["AAPL"; "MSFT"]%string None None FreqD [] [] live_prices).
  - vm_compute. reflexivity.
  - vm_compute. lia.
Defined.

(** ** The loop over the tickers *)

Lemma _get_run (w : World) (ticker : string)
      (start_date end_date : option Date) (log : list event) :
  Finance._get w ticker start_date end_date log
  = match fetch w start_date end_date ticker with
    | Ok df => (Ok (Some df), log)
    | Raise _ => (Ok None, log ++ [warning ticker])
    end.
Proof.
  unfold Finance._get, try_except, bind, lift, ret, emit, fetch.
  now destruct (quandl_get w _ start_date end_date).
Qed.

Lemma getitem_price (df : DataFrame) (log : list event) :
  has_price_column df = true ->
  getitem df Finance._col log = (Ok (price_series df), log).
Proof.
  unfold has_price_column, getitem, price_series. intros H.
  destruct (find _ (columns df)) as [nc|] eqn:E; [reflexivity|].
  apply existsb_exists in H as (nc & Hin & Hnc).
  now rewrite (find_none _ _ E nc Hin) in Hnc.
Qed.

Lemma provider_ok_tail (w : World) (s e : option Date) (t : string)
      (ts : list string) :
  provider_ok w s e (t :: ts) -> provider_ok w s e ts.
Proof. intros H t' df Hin. apply H. now right. Qed.

Lemma fetch_all_run (w : World) (s e : option Date) (tickers : list string) :
  provider_ok w s e tickers ->
  forall (data : dict) (log : list event),
    Finance.fetch_all w tickers s e data log
    = (Ok (collected w s e tickers data), log ++ warnings w s e tickers).
Proof.
  unfold warnings.
  induction tickers as [|t ts IH]; intros Hok data log.
  - cbn. now rewrite app_nil_r.
  - cbn [Finance.fetch_all collected filter]. unfold bind at 1.
    rewrite _get_run. unfold fetch_ok.
    pose proof (Hok t) as Ht.
    destruct (fetch w s e t) as [df|ex] eqn:E.
    + unfold bind. rewrite getitem_price by (apply Ht; [now left|reflexivity]).
      cbn [negb]. apply IH. eapply provider_ok_tail, Hok.
    + cbn [negb map]. rewrite IH by (eapply provider_ok_tail, Hok).
      now rewrite <- app_assoc.
Qed.

Lemma dict_set_keys (k : string) (v : Series) (d : dict) (k' : string) :
  In k' (map fst (dict_set k v d)) <-> k' = k \/ In k' (map fst d).
Proof.
  induction d as [|[k0 v0] d IH]; cbn [dict_set map fst In].
  - intuition.
  - destruct (String.eqb k0 k) eqn:E; cbn [map fst In].
    + apply String.eqb_eq in E. subst. intuition.
    + rewrite IH. intuition.
Qed.







(** ** The live path of Finance.Prices *)

Lemma Prices_live_run (w : World) (tickers : list string)
      (s e : option Date) (f : Freq) (log : list event) :
  provider_ok w s e tickers ->
  Finance.Prices w tickers s e f None log
  = resample_last f (sort_index (DataFrame_of_dict (collected w s e tickers [])))
                  (log ++ warnings w s e tickers).
Proof.
  intros Hok. unfold Finance.Prices.
  now rewrite (bind_Ok _ _ _ _ _ (fetch_all_run w s e tickers Hok [] log)).
Qed.









(** ** Failure isolation *)





Lemma live_world_provider_ok (tickers : list string) :
  provider_ok live_world None None tickers.
Proof.
  intros t df _. unfold fetch, live_world, quandl_get.
  destruct (String.eqb _ "WIKI/AAPL");
    [|destruct (String.eqb _ "WIKI/MSFT")]; intros E;
    try discriminate; injection E as <-; reflexivity.
Qed.


(** ** The cache path *)

Lemma Prices_cache_run (w : World) (tickers : list string)
      (s e : option Date) (f : Freq) (root : string) (log : list event) :
  Finance.Prices w tickers s e f (Some root) log
  = match read_csv w root with
    | Ok cache => (Ok (cached cache tickers s e), log)
    | Raise ex => (Raise ex, log)
    end.
Proof.
  unfold Finance.Prices, Finance._csv, bind, lift, ret, cached.
  now destruct (read_csv w root).
Qed.

Lemma Returns_cache_run (w : World) (tickers : list string)
      (s e : option Date) (f : Freq) (root : string) (log : list event) :
  Finance.Returns w tickers s e f (Some root) log
  = match read_csv w root with
    | Ok cache => (Ok (cached cache tickers s e), log)
    | Raise ex => (Raise ex, log)
    end.
Proof.
  unfold Finance.Returns, Finance._csv, bind, lift, ret, cached.
  now destruct (read_csv w root).
Qed.

(** C9. With a cache, [Finance.Returns] and [Finance.Prices] return the
    same thing, whatever the frequencies: the cached table, sorted by date,
    restricted to the requested columns and sliced by date, or the error
    of reading the file. The cells are those of the file: no percentage
    change is taken and nothing is resampled. *)
Theorem cache_path_bypasses_derivation_and_resampling
        (w : World) (tickers : list string)
        (start_date end_date : option Date) (freq freq' : Freq)
        (root : string) (log : list event) :
  Finance.Returns w tickers start_date end_date freq (Some root) log
  = match read_csv w root with
    | Ok cache => (Ok (cached cache tickers start_date end_date), log)
    | Raise ex => (Raise ex, log)
    end
  /\ Finance.Returns w tickers start_date end_date freq (Some root) log
     = Finance.Prices w tickers start_date end_date freq' (Some root) log
  /\ Finance.Returns w tickers start_date end_date freq (Some root) log
     = Finance.Returns w tickers start_date end_date freq' (Some root) log
  /\ Finance.Prices w tickers start_date end_date freq (Some root) log
     = Finance.Prices w tickers start_date end_date freq' (Some root) log.
Proof.
  rewrite !Returns_cache_run, !Prices_cache_run. auto.
Qed.

(** ** Sorting and slicing rows *)

Lemma In_insert_row {A : Type} (x y : Date * A) (l : list (Date * A)) :
  In y (insert_row x l) <-> y = x \/ In y l.
Proof.
  induction l as [|z l IH]; cbn [insert_row In].
  - intuition.
  - destruct (fst x <=? fst z); cbn [In]; [|rewrite IH]; intuition.
Qed.

Lemma In_sort_rows {A : Type} (y : Date * A) (l : list (Date * A)) :
  In y (sort_rows l) <-> In y l.
Proof.
  unfold sort_rows. induction l as [|x l IH]; cbn [fold_right In].
  - tauto.
  - rewrite In_insert_row, IH. intuition.
Qed.

Lemma In_sorted_index (df : DataFrame) (d : Date) :
  In d (index (sort_index df)) <-> In d (index df).
Proof.
  unfold sort_index. cbn [index]. rewrite in_map_iff. split.
  - intros ([d1 d2] & <- & H). rewrite In_sort_rows in H.
    now apply in_combine_l in H.
  - intros H. exists (d, d). split; [reflexivity|].
    apply In_sort_rows. induction (index df) as [|x l IH]; [destruct H|].
    destruct H as [->|H]; [now left|right; auto].
Qed.

Lemma in_range_spec (s e : option Date) (d : Date) :
  in_range s e d = true
  <-> (forall a, s = Some a -> a <= d) /\ (forall b, e = Some b -> d <= b).
Proof.
  unfold in_range. rewrite andb_true_iff.
  destruct s as [a|], e as [b|]; rewrite ?Z.leb_le; split.
  all: try (intros [H1 H2]; split; intros x Hx; try injection Hx as <-;
            try discriminate; assumption).
  all: intros [H1 H2]; split; auto.
Qed.

Lemma filter_nothing {A : Type} (p : A -> bool) (l : list A) :
  (forall x, In x l -> p x = false) -> filter p l = [].
Proof.
  induction l as [|x l IH]; intros H; [reflexivity|].
  cbn [filter]. rewrite (H x (or_introl eq_refl)).
  apply IH. intros y Hy. apply H. now right.
Qed.

(** C8. Date slicing with a cache that loads: [Finance.Prices] and
    [Finance.Returns] succeed with the same table; its index is the
    sorted index of the cache filtered by the bounds, so a date of the
    cache is kept exactly when it is not before [start_date] and not after
    [end_date], a missing bound excluding nothing; and with a
    [start_date] after every date of the cache the table has no row, in
    its index and in each column, and is still a success. *)
Theorem cached_date_slicing
        (w : World) (tickers : list string)
        (start_date end_date : option Date) (freq : Freq)
        (root : string) (log : list event) (cache : DataFrame) :
  read_csv w root = Ok cache ->
  exists P,
    Finance.Prices w tickers start_date end_date freq (Some root) log
    = (Ok P, log)
    /\ Finance.Returns w tickers start_date end_date freq (Some root) log
       = (Ok P, log)
    /\ index P
       = filter (in_range start_date end_date) (index (sort_index cache))
    /\ (forall d,
           In d (index P)
           <-> In d (index cache)
               /\ (forall a, start_date = Some a -> a <= d)
               /\ (forall b, end_date = Some b -> d <= b))
    /\ (forall a,
           start_date = Some a ->
           (forall d, In d (index cache) -> d < a) ->
           nrows P = 0%nat /\ forall nc, In nc (columns P) -> snd nc = []).
Proof.
  intros Hread. exists (cached cache tickers start_date end_date).
  rewrite Prices_cache_run, Returns_cache_run, Hread.
  split; [reflexivity|]. split; [reflexivity|]. split; [reflexivity|].
  unfold cached, loc_slice, select_columns, nrows. cbn [index columns].
  change (map fst (sort_rows (combine (index cache) (index cache))))
    with (index (sort_index cache)).
  split.
  - intros d. now rewrite filter_In, In_sorted_index, in_range_spec.
  - intros a -> Hlate.
    assert (Hout : forall d, In d (index (sort_index cache)) ->
                             in_range (Some a) end_date d = false).
    { intros d Hd. apply In_sorted_index, Hlate in Hd.
      unfold in_range. apply andb_false_iff. left. apply Z.leb_gt. exact Hd. }
    split.
    + now rewrite filter_nothing.
    + intros nc Hnc. apply in_map_iff in Hnc as (nc0 & <- & _). cbn [snd].
      rewrite filter_nothing; [reflexivity|].
      intros [d c] Hdc. apply in_combine_l in Hdc. cbn [fst]. now apply Hout.
Qed.

Lemma cached_date_slicing_witness :
  exists P,
    Finance.Prices cache_world ["A"; "C"]%string (Some 4) None FreqB
                   (Some "prices.csv"%string) []
    = (Ok P, [])
    /\ Finance.Returns cache_world ["A"; "C"]%string (Some 4) None FreqB
                       (Some "prices.csv"%string) []
       = (Ok P, [])
    /\ index P = filter (in_range (Some 4) None) (index (sort_index cache_table))
    /\ (forall d,
           In d (index P)
           <-> In d (index cache_table)
               /\ (forall a, Some 4 = Some a -> a <= d)
               /\ (forall b, @None Date = Some b -> d <= b))
    /\ (forall a,
           Some 4 = Some a ->
           (forall d, In d (index cache_table) -> d < a) ->
           nrows P = 0%nat /\ forall nc, In nc (columns P) -> snd nc = []).
Proof.
  apply (cached_date_slicing cache_world ["A"; "C"]%string (Some 4) None FreqB
                             "prices.csv"%string [] cache_table).
  reflexivity.
Defined.

(** ** Columns of the cache path *)

Lemma colnames_filter (n : string) (cols : list (string * list cell)) :
  map fst (filter (fun nc => String.eqb (fst nc) n) cols)
  = filter (fun c => String.eqb c n) (map fst cols).
Proof.
  induction cols as [|nc cols IH]; [reflexivity|].
  cbn [filter map]. destruct (String.eqb (fst nc) n); cbn [map]; now rewrite IH.
Qed.

Lemma colnames_select (df : DataFrame) (names : list string) :
  colnames (select_columns df names)
  = flat_map (fun n => filter (fun c => String.eqb c n) (colnames df)) names.
Proof.
  unfold colnames, select_columns. cbn [columns].
  induction names as [|n names IH]; [reflexivity|].
  cbn [flat_map]. now rewrite map_app, IH, colnames_filter.
Qed.

Lemma colnames_sort_index (df : DataFrame) :
  colnames (sort_index df) = colnames df.
Proof.
  unfold colnames, sort_index. cbn [columns]. now rewrite map_map.
Qed.

Lemma colnames_loc_slice (df : DataFrame) (s e : option Date) :
  colnames (loc_slice df s e) = colnames df.
Proof.
  unfold colnames, loc_slice. cbn [columns]. now rewrite map_map.
Qed.

Lemma filter_unique (n : string) (l : list string) :
  NoDup l -> In n l -> filter (fun c => String.eqb c n) l = [n].
Proof.
  induction 1 as [|x l Hx Hl IH]; intros Hin; [destruct Hin|].
  cbn [filter]. destruct (String.eqb x n) eqn:E.
  - apply String.eqb_eq in E. subst x. f_equal.
    apply filter_nothing. intros y Hy. apply String.eqb_neq.
    intros ->. contradiction.
  - apply String.eqb_neq in E. destruct Hin as [->|Hin]; [congruence|auto].
Qed.

Lemma existsb_eqb_In (t : string) (l : list string) :
  existsb (String.eqb t) l = true <-> In t l.
Proof.
  rewrite existsb_exists. split.
  - intros (x & Hx & E). apply String.eqb_eq in E. now subst.
  - intros H. exists t. split; [assumption|apply String.eqb_refl].
Qed.

Lemma flat_map_present (l : list string) (names : list string) :
  NoDup l ->
  flat_map (fun n => filter (fun c => String.eqb c n) l)
           (filter (fun t => existsb (String.eqb t) l) names)
  = filter (fun t => existsb (String.eqb t) l) names.
Proof.
  intros Hl. induction names as [|n names IH]; [reflexivity|].
  cbn [filter]. destruct (existsb (String.eqb n) l) eqn:E; [|exact IH].
  cbn [flat_map]. rewrite IH, filter_unique; auto.
  now apply existsb_eqb_In.
Qed.

(** C5, as the code has it. With a cache that loads and whose column names
    are distinct, the columns of the output are the requested tickers that
    the cache has, in the order of the request (a ticker requested twice
    comes twice): a column is in the output exactly when it is requested
    and in the cache, so a ticker the cache lacks is dropped without error
    and no column is made up. *)
Theorem cache_columns_follow_request
        (w : World) (tickers : list string)
        (start_date end_date : option Date) (freq : Freq)
        (root : string) (log : list event) (cache : DataFrame) :
  read_csv w root = Ok cache ->
  NoDup (colnames cache) ->
  exists P,
    Finance.Prices w tickers start_date end_date freq (Some root) log
    = (Ok P, log)
    /\ colnames P
       = filter (fun t => existsb (String.eqb t) (colnames cache)) tickers
    /\ forall c, In c (colnames P) <-> In c tickers /\ In c (colnames cache).
Proof.
  intros Hread Hnodup. exists (cached cache tickers start_date end_date).
  rewrite Prices_cache_run, Hread. split; [reflexivity|].
  assert (E : colnames (cached cache tickers start_date end_date)
              = filter (fun t => existsb (String.eqb t) (colnames cache))
                       tickers).
  { unfold cached.
    rewrite colnames_loc_slice, colnames_select, colnames_sort_index.
    now apply flat_map_present. }
  split; [exact E|].
  intros c. now rewrite E, filter_In, existsb_eqb_In.
Qed.

Lemma cache_columns_follow_request_witness :
  exists P,
    Finance.Prices cache_world ["C"; "B"; "A"]%string None None FreqB
                   (Some "prices.csv"%string) []
    = (Ok P, [])
    /\ colnames P
       = filter (fun t => existsb (String.eqb t) (colnames cache_table))
                ["C"; "B"; "A"]%string
    /\ forall c, In c (colnames P)
                 <-> In c ["C"; "B"; "A"]%string /\ In c (colnames cache_table).
Proof.
  apply (cache_columns_follow_request
           cache_world ["C"; "B"; "A"]%string None None FreqB
           "prices.csv"%string [] cache_table).
  - reflexivity.
  - repeat constructor; cbn; intuition discriminate.
Defined.

(** C5, as the specification has it, fails: the cache has the columns A, C
    in that order, the request is C, B, A, and the output has C before A,
    which is not the order of the cache. *)
Lemma cache_columns_not_in_cache_order :
  exists P,
    Finance.Prices cache_world ["C"; "B"; "A"]%string None None FreqB
                   (Some "prices.csv"%string) []
    = (Ok P, [])
    /\ colnames P = ["C"; "A"]%string
    /\ colnames P
       <> filter (fun c => existsb (String.eqb c) ["C"; "B"; "A"]%string)
                 (colnames cache_table).
Proof.
  eexists. split; [reflexivity|]. split; [reflexivity|].
  cbn. discriminate.
Qed.

(** ** The cumulative product *)

Lemma cumprod_from_scan (l : list cell) :
  forallb (fun c => negb (isna c)) l = true ->
  forall acc,
    List.length (cumprod_from acc l) = List.length l
    /\ forall t,
        (t < List.length l)%nat ->
        nth t (cumprod_from acc l) NaN
        = cell_mul match t with
                   | O => acc
                   | S t' => nth t' (cumprod_from acc l) NaN
                   end
                   (nth t l NaN).
Proof.
  induction l as [|x l IH]; intros H acc.
  - split; [reflexivity|]. cbn. lia.
  - cbn [forallb] in H. apply andb_true_iff in H as [Hx Hl].
    cbn [cumprod_from]. destruct (isna x); [discriminate|].
    destruct (IH Hl (cell_mul acc x)) as [Hlen Hnth].
    split; [cbn [List.length]; now rewrite Hlen|].
    intros [|t] Ht; [reflexivity|].
    cbn [List.length] in Ht. cbn [nth].
    rewrite Hnth by lia. now destruct t.
Qed.

Lemma add1_valid (l : list cell) :
  forallb (fun c => negb (isna c)) l = true ->
  forallb (fun c => negb (isna c)) (add1 l) = true.
Proof.
  unfold add1. rewrite !forallb_forall. intros H c Hc.
  apply in_map_iff in Hc as (r & <- & Hr). specialize (H r Hr).
  now destruct r.
Qed.

Lemma nth_add1 (t : nat) (l : list cell) :
  nth t (add1 l) NaN = cell_add cell_one (nth t l NaN).
Proof.
  unfold add1. rewrite cell_add_comm.
  change NaN with (cell_add NaN cell_one) at 1.
  apply (map_nth (fun c => cell_add c cell_one)).
Qed.

Lemma cumprod_recurrence (rets : list cell) :
  forallb (fun c => negb (isna c)) rets = true ->
  price_recurrence rets (cumprod (add1 rets)).
Proof.
  intros H. unfold price_recurrence, cumprod.
  destruct (cumprod_from_scan (add1 rets) (add1_valid rets H) cell_one)
    as [Hlen Hnth].
  unfold add1 in Hlen at 2. rewrite length_map in Hlen.
  split; [exact Hlen|].
  intros t Ht. rewrite Hnth by (unfold add1; now rewrite length_map).
  rewrite nth_add1. destruct t; [apply cell_mul_one_l|reflexivity].
Qed.

(** ** VAR.Returns and VAR.Prices, step by step *)


Lemma VAR_Prices_run (w : World) (tickers : list string)
      (s e : option Date) (f : Freq) (csv : option string)
      (order : Z) (rp : bool) (log log1 : list event)
      (out : VAR.output rp) (T : DataFrame) :
  VAR.Returns w tickers s e f csv order rp log = (Ok out, log1) ->
  clean w (VAR.table out) = Ok T ->
  exists out',
    VAR.Prices w tickers s e f csv order rp log = (Ok out', log1)
    /\ VAR.table out' = df_cumprod (df_add1 T).
Proof.
  destruct rp; cbn [VAR.output VAR.table] in *; intros Hret Hclean;
    unfold VAR.Prices; rewrite (bind_Ok _ _ _ _ _ Hret).
  - destruct out as [returns pars]. cbn [fst] in Hclean.
    unfold bind, lift, ret. rewrite Hclean.
    eexists. split; reflexivity.
  - unfold bind, lift, ret. rewrite Hclean.
    eexists. split; reflexivity.
Qed.

Lemma all_cells_columns (p : cell -> bool) (df : DataFrame) :
  all_cells p df = true ->
  Forall (fun nc => forallb p (snd nc) = true) (columns df).
Proof.
  unfold all_cells. rewrite forallb_forall. apply Forall_forall.
Qed.

Lemma cumprod_table_recurrence (T : DataFrame) :
  no_missing T = true ->
  Forall2 (fun tc pc =>
             fst pc = fst tc /\ price_recurrence (snd tc) (snd pc))
          (columns T) (columns (df_cumprod (df_add1 T))).
Proof.
  intros H. apply all_cells_columns in H.
  unfold df_cumprod, df_add1, map_columns. cbn [columns].
  induction H as [|nc cols Hnc _ IH]; cbn [map]; constructor.
  - cbn [fst snd]. split; [reflexivity|now apply cumprod_recurrence].
  - exact IH.
Qed.

(** C2. [VAR.Prices] rebuilds the prices from the cleaned simulated
    returns by the cumulative product: when [VAR.Returns] gives the
    simulated table and cleaning it gives a table [T] without missing
    values, [VAR.Prices] succeeds with a table that has the index of [T]
    and, column by column under the same name, [price[0] = 1 + return[0]]
    and [price[t] = price[t-1] * (1 + return[t])] for [t > 0]. For the
    simulated column 0.01, -0.02, 0.03 the prices are 1.01, 0.9898,
    1.019494, exactly. *)
Theorem cumulative_product_reconstruction :
  (forall (w : World) (tickers : list string)
          (start_date end_date : option Date) (freq : Freq)
          (csv : option string) (model_order : Z) (return_params : bool)
          (log log1 : list event) (out : VAR.output return_params)
          (T : DataFrame),
      VAR.Returns w tickers start_date end_date freq csv model_order
                  return_params log
      = (Ok out, log1) ->
      clean w (VAR.table out) = Ok T ->
      no_missing T = true ->
      exists out',
        VAR.Prices w tickers start_date end_date freq csv model_order
                   return_params log
        = (Ok out', log1)
        /\ index (VAR.table out') = index T
        /\ Forall2 (fun tc pc =>
                      fst pc = fst tc /\ price_recurrence (snd tc) (snd pc))
                   (columns T) (columns (VAR.table out')))
  /\ cumprod (add1 [num 1 100; num (-2) 100; num 3 100])
     = [num 101 100; num 9898 10000; num 1019494 1000000]
  /\ exists P,
      VAR.Prices sim_world ["A"]%string None None FreqB
                 (Some "returns.csv"%string) 2 false []
      = (Ok P, [CallVAR 2])
      /\ index P = [0; 1; 2]
      /\ colnames P = ["A"]%string
      /\ map snd (columns P)
         = [[num 101 100; num 9898 10000; num 1019494 1000000]].
Proof.
  split; [|split].
  - intros w tickers start_date end_date freq csv model_order return_params
           log log1 out T Hret Hclean Hvalid.
    destruct (VAR_Prices_run _ _ _ _ _ _ _ _ _ _ _ _ Hret Hclean)
      as (out' & Hrun & Htable).
    exists out'. rewrite Htable. split; [exact Hrun|]. split; [reflexivity|].
    now apply cumprod_table_recurrence.
  - apply cells_eqb_eq. vm_compute. reflexivity.
  - eexists. split; [reflexivity|]. split; [reflexivity|].
    split; [reflexivity|].
    vm_compute. f_equal.
    apply cells_eqb_eq. vm_compute. reflexivity.
Qed.

Lemma cumulative_product_reconstruction_witness :
  exists out',
    VAR.Prices sim_world ["A"]%string None None FreqB
               (Some "returns.csv"%string) 2 false []
    = (Ok out', [CallVAR 2])
    /\ index (@VAR.table false out') = index sim_returns
    /\ Forall2 (fun tc pc =>
                  fst pc = fst tc /\ price_recurrence (snd tc) (snd pc))
               (columns sim_returns) (columns (@VAR.table false out')).
Proof.
  apply (proj1 cumulative_product_reconstruction
               sim_world ["A"]%string None None FreqB
               (Some "returns.csv"%string) 2 false [] [CallVAR 2]
               sim_returns sim_returns).
  - reflexivity.
  - reflexivity.
  - reflexivity.
Defined.

(** ** Positivity *)











(** ** The model order *)




(** * Further properties of the module *)

(** ** The loop, whatever the provider answers *)

Lemma fetch_all_app (w : World) (s e : option Date) (l1 l2 : list string)
      (data : dict) (log : list event) :
  Finance.fetch_all w (l1 ++ l2) s e data log
  = match Finance.fetch_all w l1 s e data log with
    | (Ok d, log1) => Finance.fetch_all w l2 s e d log1
    | (Raise ex, log1) => (Raise ex, log1)
    end.
Proof.
  revert data log. induction l1 as [|t l1 IH]; intros data log.
  - reflexivity.
  - cbn [app Finance.fetch_all]. unfold bind. rewrite _get_run.
    destruct (fetch w s e t) as [df|ex0].
    + destruct (getitem df Finance._col log) as [[col|ex] log2];
        [apply IH|reflexivity].
    + apply IH.
Qed.

Lemma getitem_missing (df : DataFrame) (log : list event) :
  has_price_column df = false ->
  getitem df Finance._col log = (Raise KeyError, log).
Proof.
  unfold has_price_column, getitem. intros H.
  destruct (find _ (columns df)) as [nc|] eqn:E; [|reflexivity].
  apply find_some in E as [Hin Hnc].
  assert (existsb (fun nc => String.eqb (fst nc) Finance._col) (columns df)
          = true) by (apply existsb_exists; eauto).
  congruence.
Qed.

(** X1. The price column is read outside the [try]: when a fetched answer
    has no 'Adj. Close' column, [Finance.Prices] raises [KeyError] at that
    ticker, after the warnings of the tickers before it, whatever comes
    after it in the request. *)
Theorem missing_price_column_raises_KeyError
        (w : World) (before after : list string) (ticker : string)
        (start_date end_date : option Date) (freq : Freq)
        (log : list event) (df : DataFrame) :
  provider_ok w start_date end_date before ->
  fetch w start_date end_date ticker = Ok df ->
  has_price_column df = false ->
  Finance.Prices w (before ++ ticker :: after) start_date end_date freq None log
  = (Raise KeyError, log ++ warnings w start_date end_date before).
Proof.
  intros Hok Hfetch Hcol. unfold Finance.Prices.
  apply bind_Raise. rewrite fetch_all_app.
  rewrite (fetch_all_run w _ _ before Hok [] log).
  cbn [Finance.fetch_all]. unfold bind at 1. rewrite _get_run, Hfetch.
  apply bind_Raise. now apply getitem_missing.
Qed.

Lemma dict_set_NoDup (k : string) (v : Series) (d : dict) :
  NoDup (map fst d) -> NoDup (map fst (dict_set k v d)).
Proof.
  induction d as [|[k0 v0] d IH]; cbn [dict_set map fst]; intros H.
  - repeat constructor. intros [].
  - inversion H as [|? ? Hk0 Hd]; subst.
    destruct (String.eqb k0 k) eqn:E.
    + apply String.eqb_eq in E. subst k0. cbn [map fst]. now constructor.
    + apply String.eqb_neq in E. cbn [map fst]. constructor; [|auto].
      rewrite dict_set_keys. intros [->|Hin]; auto.
Qed.

Lemma fetch_all_NoDup (w : World) (s e : option Date) (tickers : list string) :
  forall (data data' : dict) (log log' : list event),
    Finance.fetch_all w tickers s e data log = (Ok data', log') ->
    NoDup (map fst data) -> NoDup (map fst data').
Proof.
  induction tickers as [|t ts IH]; intros data data' log log' Hrun Hnd.
  - cbn in Hrun. injection Hrun as <- _. exact Hnd.
  - cbn [Finance.fetch_all] in Hrun. unfold bind at 1 in Hrun.
    rewrite _get_run in Hrun.
    destruct (fetch w s e t) as [df|ex].
    + unfold bind at 1 in Hrun.
      destruct (getitem df Finance._col log) as [[col|ex] log2];
        [|discriminate].
      eapply IH; [exact Hrun|]. now apply dict_set_NoDup.
    + eapply IH; eauto.
Qed.

Lemma fetch_all_keys (w : World) (s e : option Date) (tickers : list string) :
  forall (data data' : dict) (log log' : list event),
    Finance.fetch_all w tickers s e data log = (Ok data', log') ->
    forall t, In t (map fst data') -> In t (map fst data) \/ In t tickers.
Proof.
  induction tickers as [|t0 ts IH]; intros data data' log log' Hrun t Ht.
  - cbn in Hrun. injection Hrun as <- _. now left.
  - cbn [Finance.fetch_all] in Hrun. unfold bind at 1 in Hrun.
    rewrite _get_run in Hrun.
    destruct (fetch w s e t0) as [df|ex].
    + unfold bind at 1 in Hrun.
      destruct (getitem df Finance._col log) as [[col|ex] log2];
        [|discriminate].
      destruct (IH _ _ _ _ Hrun t Ht) as [H|H]; [|right; now right].
      apply dict_set_keys in H as [->|H]; [right; now left|now left].
    + destruct (IH _ _ _ _ Hrun t Ht) as [H|H]; [now left|right; now right].
Qed.

Lemma resample_last_Ok (f : Freq) (df P : DataFrame) (log log' : list event) :
  resample_last f df log = (Ok P, log') ->
  datetime_index df = true
  /\ log' = log
  /\ datetime_index P = true
  /\ index P = period_labels f (index df)
  /\ colnames P = colnames df.
Proof.
  unfold resample_last. destruct (datetime_index df); [|discriminate].
  unfold ret. intros H. injection H as <- <-.
  unfold colnames. cbn [datetime_index index columns]. rewrite map_map.
  auto.
Qed.

Lemma dict_frame_datetime (data : dict) :
  datetime_index (sort_index (DataFrame_of_dict data)) = true ->
  colnames (sort_index (DataFrame_of_dict data)) = map fst data.
Proof.
  destruct data as [|ks data]; [discriminate|]. intros _.
  unfold colnames, sort_index, DataFrame_of_dict. cbn [columns].
  now rewrite !map_map.
Qed.

(** X2. The live table is built from a dict keyed by ticker: whatever the
    request, the table [Finance.Prices] returns has a date index, one cell
    per row in every column, and column names that are all different, a
    ticker requested twice giving one column. *)
Theorem live_table_well_formed
        (w : World) (tickers : list string)
        (start_date end_date : option Date) (freq : Freq)
        (log log' : list event) (P : DataFrame) :
  Finance.Prices w tickers start_date end_date freq None log = (Ok P, log') ->
  datetime_index P = true
  /\ rectangular P
  /\ NoDup (colnames P)
  /\ forall t, In t (colnames P) -> In t tickers.
Proof.
  intros HP. pose proof (Prices_live_rectangular _ _ _ _ _ _ _ _ HP) as Hrect.
  unfold Finance.Prices, bind in HP.
  destruct (Finance.fetch_all w tickers start_date end_date [] log)
    as [[data|ex] log1] eqn:Hloop; [|discriminate].
  apply resample_last_Ok in HP as (Hdt & _ & HdtP & _ & Hcols).
  rewrite (dict_frame_datetime data Hdt) in Hcols.
  split; [exact HdtP|]. split; [exact Hrect|]. rewrite Hcols. split.
  - eapply fetch_all_NoDup; [exact Hloop|constructor].
  - intros t Ht.
    destruct (fetch_all_keys _ _ _ _ _ _ _ _ Hloop t Ht) as [[]|H]. exact H.
Qed.

(** ** The calendar of the live table *)

Lemma next_label_gt (f : Freq) (l : Date) : l < next_label f l.
Proof.
  destruct f; cbn [next_label]; [destruct (weekday l =? 4)|..]; lia.
Qed.

Lemma weekday_range (d : Date) : 0 <= weekday d < 7.
Proof. unfold weekday. apply Z.mod_pos_bound. lia. Qed.

Lemma weekday_shift (d k r : Z) :
  0 <= r < 7 -> (weekday d + k) mod 7 = r -> weekday (d + k) = r.
Proof.
  unfold weekday. intros Hr H. rewrite <- H.
  now rewrite Z.add_mod_idemp_l by lia.
Qed.

Lemma bin_label_weekday_B (d : Date) : weekday (bin_label FreqB d) < 5.
Proof.
  cbn [bin_label]. pose proof (weekday_range d) as Hd.
  destruct (5 <=? weekday d) eqn:E.
  - apply Z.leb_le in E.
    replace (d - (weekday d - 4)) with (d + (4 - weekday d)) by lia.
    rewrite (weekday_shift d (4 - weekday d) 4); [lia|lia|].
    replace (weekday d + (4 - weekday d)) with 4 by lia. reflexivity.
  - apply Z.leb_gt in E. exact E.
Qed.

Lemma bin_label_weekday_W (d : Date) : weekday (bin_label FreqW d) = 6.
Proof.
  cbn [bin_label]. pose proof (weekday_range d) as Hd.
  apply weekday_shift; [lia|].
  replace (weekday d + (6 - weekday d)) with 6 by lia. reflexivity.
Qed.

Lemma is_label_B (l : Date) : bin_label FreqB l = l <-> weekday l < 5.
Proof.
  cbn [bin_label]. destruct (5 <=? weekday l) eqn:E.
  - apply Z.leb_le in E. lia.
  - apply Z.leb_gt in E. tauto.
Qed.

Lemma is_label_W (l : Date) : bin_label FreqW l = l <-> weekday l = 6.
Proof. cbn [bin_label]. lia. Qed.

Lemma bin_label_idem (f : Freq) (d : Date) :
  bin_label f (bin_label f d) = bin_label f d.
Proof.
  destruct f.
  - apply is_label_B, bin_label_weekday_B.
  - reflexivity.
  - apply is_label_W, bin_label_weekday_W.
Qed.

Lemma next_label_is_label (f : Freq) (l : Date) :
  bin_label f l = l -> bin_label f (next_label f l) = next_label f l.
Proof.
  destruct f.
  - rewrite !is_label_B. intros H. cbn [next_label].
    pose proof (weekday_range l) as Hl.
    destruct (weekday l =? 4) eqn:E4.
    + apply Z.eqb_eq in E4.
      rewrite (weekday_shift l 3 0); [lia|lia|now rewrite E4].
    + apply Z.eqb_neq in E4.
      rewrite (weekday_shift l 1 (weekday l + 1)); [lia|lia|].
      apply Z.mod_small. lia.
  - reflexivity.
  - rewrite !is_label_W. intros H. cbn [next_label].
    apply weekday_shift; [lia|now rewrite H].
Qed.

Lemma labels_from_bounds (f : Freq) (hi : Date) (n : nat) :
  forall l x, In x (labels_from n f l hi) -> l <= x <= hi.
Proof.
  induction n as [|n IH]; intros l x; cbn [labels_from]; [intros []|].
  destruct (l <=? hi) eqn:E; [|intros []].
  apply Z.leb_le in E. intros [<-|H]; [lia|].
  apply IH in H. pose proof (next_label_gt f l). lia.
Qed.






(** ** Sorting rows by date *)

Lemma insert_row_keys {A B : Type} (x : Date * A) (y : Date * B)
      (l : list (Date * A)) (m : list (Date * B)) :
  fst x = fst y -> map fst l = map fst m ->
  map fst (insert_row x l) = map fst (insert_row y m).
Proof.
  intros Hxy. revert m. induction l as [|a l IH]; intros [|b m] H;
    try discriminate; cbn [insert_row].
  - cbn [map]. now rewrite Hxy.
  - cbn [map] in H. injection H as Hab Hlm.
    rewrite Hxy, Hab. destruct (fst y <=? fst b).
    + cbn [map]. now rewrite Hxy, Hab, Hlm.
    + cbn [map]. now rewrite Hab, (IH m Hlm).
Qed.

Lemma sort_rows_keys {A B : Type} (l : list (Date * A)) (m : list (Date * B)) :
  map fst l = map fst m -> map fst (sort_rows l) = map fst (sort_rows m).
Proof.
  unfold sort_rows. revert m. induction l as [|a l IH]; intros [|b m] H;
    try discriminate; [reflexivity|].
  cbn [map] in H. injection H as Hab Hlm. cbn [fold_right].
  apply insert_row_keys; auto.
Qed.

Lemma combine_keys {A : Type} (l : list Date) (m : list A) :
  List.length m = List.length l -> map fst (combine l m) = l.
Proof.
  revert m. induction l as [|d l IH]; intros [|a m] H; try discriminate;
    [reflexivity|].
  cbn [combine map fst]. f_equal. apply IH. now injection H.
Qed.

Lemma combine_fst_snd {A : Type} (l : list (Date * A)) :
  combine (map fst l) (map snd l) = l.
Proof.
  induction l as [|[d a] l IH]; [reflexivity|]. cbn. now rewrite IH.
Qed.

Lemma insert_row_sorted {A : Type} (x : Date * A) (l : list (Date * A)) :
  Sorted Z.le (map fst l) -> Sorted Z.le (map fst (insert_row x l)).
Proof.
  induction l as [|y l IH]; intros H; cbn [insert_row map].
  - repeat constructor.
  - destruct (fst x <=? fst y) eqn:E; cbn [map].
    + apply Z.leb_le in E. constructor; [exact H|]. now constructor.
    + apply Z.leb_gt in E. inversion H as [|? ? Hl Hhd]; subst.
      constructor; [now apply IH|].
      destruct l as [|z l]; cbn [insert_row map].
      * constructor. lia.
      * destruct (fst x <=? fst z); cbn [map]; constructor.
        -- lia.
        -- now inversion Hhd.
Qed.

Lemma sort_rows_sorted {A : Type} (l : list (Date * A)) :
  Sorted Z.le (map fst (sort_rows l)).
Proof.
  unfold sort_rows. induction l as [|x l IH]; cbn [fold_right].
  - constructor.
  - now apply insert_row_sorted.
Qed.

Lemma StronglySorted_filter (p : Date -> bool) (l : list Date) :
  StronglySorted Z.le l -> StronglySorted Z.le (filter p l).
Proof.
  induction 1 as [|d l Hl IH Hd]; cbn [filter]; [constructor|].
  destruct (p d); [|exact IH].
  constructor; [exact IH|].
  apply Forall_forall. intros x Hx. apply filter_In in Hx as [Hx _].
  rewrite Forall_forall in Hd. auto.
Qed.

Lemma Zle_transitive : Relations_1.Transitive Z.le.
Proof. intros x y z. apply Z.le_trans. Qed.

Lemma sorted_filter (p : Date -> bool) (l : list Date) :
  Sorted Z.le l -> Sorted Z.le (filter p l).
Proof.
  intros H. apply StronglySorted_Sorted, StronglySorted_filter.
  apply Sorted_StronglySorted; [exact Zle_transitive|exact H].
Qed.

Lemma filter_keys {A : Type} (p : Date -> bool) (l : list (Date * A)) :
  filter p (map fst l) = map fst (filter (fun r => p (fst r)) l).
Proof.
  induction l as [|x l IH]; [reflexivity|].
  cbn [map filter]. destruct (p (fst x)); cbn [map]; now rewrite IH.
Qed.

(** The rows of a sorted, sliced column, with their dates. *)
Lemma slice_sorted_column (idx : list Date) (col : list cell)
      (s e : option Date) :
  List.length col = List.length idx ->
  filter (in_range s e) (map fst (sort_rows (combine idx idx)))
  = map fst (filter (fun r => in_range s e (fst r))
                    (sort_rows (combine idx col)))
  /\ map snd
         (filter (fun r => in_range s e (fst r))
                 (combine (map fst (sort_rows (combine idx idx)))
                          (map snd (sort_rows (combine idx col)))))
     = map snd (filter (fun r => in_range s e (fst r))
                       (sort_rows (combine idx col))).
Proof.
  intros Hlen.
  assert (E : map fst (sort_rows (combine idx idx))
              = map fst (sort_rows (combine idx col))).
  { apply sort_rows_keys. rewrite !combine_keys; auto. }
  rewrite E, combine_fst_snd, filter_keys. auto.
Qed.

Lemma In_select_columns (df : DataFrame) (names : list string)
      (nc : string * list cell) :
  In nc (columns (select_columns df names))
  <-> In (fst nc) names /\ In nc (columns df).
Proof.
  unfold select_columns. cbn [columns]. rewrite in_flat_map. split.
  - intros (n & Hn & H). apply filter_In in H as [H E].
    apply String.eqb_eq in E. subst n. auto.
  - intros [Hn H]. exists (fst nc). split; [exact Hn|].
    apply filter_In. split; [exact H|apply String.eqb_refl].
Qed.

(** X4. The cache path keeps the rows of the file together. With a cache
    file that loads and is rectangular, the table [Finance.Prices] returns
    is rectangular, its dates are in ascending order whatever their order
    in the file, and in every column each value stands at the date it has
    in the column of that name in the file, that date being within the
    bounds. *)
Theorem cache_rows_kept_together
        (w : World) (tickers : list string)
        (start_date end_date : option Date) (freq : Freq)
        (root : string) (log : list event) (cache : DataFrame) :
  read_csv w root = Ok cache ->
  rectangular cache ->
  exists P,
    Finance.Prices w tickers start_date end_date freq (Some root) log
    = (Ok P, log)
    /\ rectangular P
    /\ Sorted Z.le (index P)
    /\ forall name col,
        In (name, col) (columns P) ->
        In name tickers
        /\ exists col0,
            In (name, col0) (columns cache)
            /\ forall d c,
                In (d, c) (combine (index P) col) ->
                In (d, c) (combine (index cache) col0)
                /\ in_range start_date end_date d = true.
Proof.
  intros Hread Hrect. exists (cached cache tickers start_date end_date).
  rewrite Prices_cache_run, Hread. split; [reflexivity|].
  set (keep := fun r : Date * cell => in_range start_date end_date (fst r)).
  assert (Hcol : forall name col,
             In (name, col)
                (columns (cached cache tickers start_date end_date)) ->
             In name tickers
             /\ exists col0,
                 In (name, col0) (columns cache)
                 /\ index (cached cache tickers start_date end_date)
                    = map fst (filter keep (sort_rows (combine (index cache) col0)))
                 /\ col
                    = map snd (filter keep (sort_rows (combine (index cache) col0)))).
  { intros name col H. unfold cached, loc_slice in H. cbn [columns] in H.
    apply in_map_iff in H as (nc & E & H). injection E as <- <-.
    apply In_select_columns in H as [Hname H].
    apply filter_In in Hname as [Hname _].
    unfold sort_index in H. cbn [columns] in H.
    apply in_map_iff in H as ([n0 col0] & <- & H0). cbn [fst snd] in *.
    split; [exact Hname|]. exists col0. split; [exact H0|].
    unfold rectangular, nrows in Hrect. rewrite Forall_forall in Hrect.
    exact (slice_sorted_column (index cache) col0 start_date end_date
                               (Hrect _ H0)). }
  split; [|split].
  - unfold rectangular, nrows. apply Forall_forall. intros [name col] H.
    destruct (Hcol name col H) as (_ & col0 & _ & -> & ->). cbn [snd].
    now rewrite !length_map.
  - unfold cached, loc_slice, select_columns, sort_index. cbn [index].
    apply sorted_filter, sort_rows_sorted.
  - intros name col H.
    destruct (Hcol name col H) as (Hname & col0 & H0 & -> & ->).
    split; [exact Hname|]. exists col0. split; [exact H0|].
    intros d c Hdc. rewrite combine_fst_snd in Hdc.
    apply filter_In in Hdc as [Hdc Hr].
    split; [|exact Hr]. now rewrite In_sort_rows in Hdc.
Qed.

Lemma cache_rows_kept_together_witness :
  exists P,
    Finance.Prices cache_world ["C"; "A"]%string (Some 2) None FreqB
                   (Some "prices.csv"%string) []
    = (Ok P, [])
    /\ rectangular P
    /\ Sorted Z.le (index P)
    /\ forall name col,
        In (name, col) (columns P) ->
        In name ["C"; "A"]%string
        /\ exists col0,
            In (name, col0) (columns cache_table)
            /\ forall d c,
                In (d, c) (combine (index P) col) ->
                In (d, c) (combine (index cache_table) col0)
                /\ in_range (Some 2) None d = true.
Proof.
  apply (cache_rows_kept_together
           cache_world ["C"; "A"]%string (Some 2) None FreqB
           "prices.csv"%string [] cache_table).
  - reflexivity.
  - repeat constructor.
Defined.

(** ** Where the values of the live table come from *)

Lemma dict_set_In (k k' : string) (v v' : Series) (d : dict) :
  In (k', v') (dict_set k v d) -> (k', v') = (k, v) \/ In (k', v') d.
Proof.
  induction d as [|[k0 v0] d IH]; cbn [dict_set In].
  - intros [H|[]]. now left.
  - destruct (String.eqb k0 k); cbn [In].
    + intros [H|H]; auto.
    + intros [H|H]; auto. destruct (IH H); auto.
Qed.

Lemma collected_values (w : World) (s e : option Date) (tickers : list string) :
  forall (data : dict) (k : string) (v : Series),
    In (k, v) (collected w s e tickers data) ->
    In (k, v) data
    \/ (In k tickers
        /\ exists df, fetch w s e k = Ok df /\ v = price_series df).
Proof.
  induction tickers as [|t ts IH]; intros data k v H; [now left|].
  cbn [collected] in H.
  destruct (fetch w s e t) as [df|ex] eqn:E.
  - destruct (IH _ _ _ H) as [H1|(H1 & H2)].
    + apply dict_set_In in H1 as [H1|H1]; [|now left].
      injection H1 as -> ->. right. split; [now left|eauto].
    + right. split; [now right|exact H2].
  - destruct (IH _ _ _ H) as [H1|(H1 & H2)]; [now left|].
    right. split; [now right|exact H2].
Qed.

Lemma series_get_In (d : Date) (s : Series) :
  series_get d s = NaN \/ In (d, series_get d s) s.
Proof.
  induction s as [|[d0 c0] s IH]; cbn [series_get In]; [now left|].
  destruct (d0 =? d) eqn:E.
  - apply Z.eqb_eq in E. subst. right. now left.
  - destruct IH; auto.
Qed.

Lemma last_valid_In (l : list cell) :
  forall acc, last_valid acc l = acc \/ In (last_valid acc l) l.
Proof.
  induction l as [|x l IH]; intros acc; cbn [last_valid In]; [now left|].
  destruct (IH (if isna x then acc else x)) as [H|H]; [|auto].
  rewrite H. destruct (isna x); auto.
Qed.

Lemma In_combine_map {A B : Type} (g : A -> B) (l : list A) (a : A) (b : B) :
  In (a, b) (combine l (map g l)) -> b = g a.
Proof.
  induction l as [|x l IH]; cbn [combine map In]; [intros []|].
  intros [H|H]; [now injection H as <- <-|auto].
Qed.

Lemma sorted_column_rows (idx : list Date) (col : list cell) :
  List.length col = List.length idx ->
  combine (map fst (sort_rows (combine idx idx)))
          (map snd (sort_rows (combine idx col)))
  = sort_rows (combine idx col).
Proof.
  intros Hlen.
  rewrite (sort_rows_keys (combine idx idx) (combine idx col))
    by (rewrite !combine_keys; auto).
  apply combine_fst_snd.
Qed.

Lemma Forall2_map_r {A B : Type} (R : A -> B -> Prop) (g : A -> B)
      (l : list A) :
  (forall a, In a l -> R a (g a)) -> Forall2 R l (map g l).
Proof.
  induction l as [|a l IH]; intros H; cbn [map]; constructor.
  - apply H. now left.
  - apply IH. intros x Hx. apply H. now right.
Qed.

Lemma dict_frame_nonempty (data : dict) :
  data <> [] ->
  DataFrame_of_dict data
  = let idx := dedup (flat_map (fun ks => map fst (snd ks)) data) in
    mkDF true idx
         (map (fun ks => (fst ks, map (fun d => series_get d (snd ks)) idx))
              data).
Proof. destruct data; [congruence|reflexivity]. Qed.

Lemma resample_dict_nonempty (f : Freq) (data : dict) (P : DataFrame)
      (log log' : list event) :
  resample_last f (sort_index (DataFrame_of_dict data)) log = (Ok P, log') ->
  data <> [].
Proof. intros H ->. discriminate. Qed.

Lemma live_columns (f : Freq) (data : dict) (P : DataFrame)
      (log log' : list event) :
  resample_last f (sort_index (DataFrame_of_dict data)) log = (Ok P, log') ->
  forall name col,
    In (name, col) (columns P) ->
    exists s,
      In (name, s) data
      /\ Forall2 (fun L c =>
                    c = NaN
                    \/ exists d, In (d, c) s /\ bin_label f d = L)
                 (index P) col.
Proof.
  intros HP name col Hcol.
  rewrite (dict_frame_nonempty data (resample_dict_nonempty _ _ _ _ _ HP))
    in HP.
  cbv zeta in HP.
  set (idx := dedup (flat_map (fun ks => map fst (snd ks)) data)) in *.
  unfold resample_last, sort_index in HP.
  cbn [datetime_index index columns] in HP. unfold ret in HP.
  injection HP as <- _. cbn [columns index] in *.
  rewrite !map_map in Hcol.
  apply in_map_iff in Hcol as ([k s] & E & Hks). cbn [fst snd] in E.
  injection E as <- <-.
  exists s. split; [exact Hks|].
  apply Forall2_map_r. intros L _.
  unfold last_in_period. rewrite sorted_column_rows by apply length_map.
  match goal with
  | |- last_valid NaN ?l = NaN \/ _ =>
      destruct (last_valid_In l NaN) as [H|H]; [now left|]
  end.
  apply in_map_iff in H as ([d c] & Hc & Hrow). cbn [snd] in Hc.
  apply filter_In in Hrow as [Hrow HL]. cbn [fst] in HL.
  apply Z.eqb_eq in HL.
  rewrite In_sort_rows in Hrow. apply In_combine_map in Hrow.
  rewrite <- Hc, Hrow.
  destruct (series_get_In d s) as [Hn|Hin]; [now left|].
  right. exists d. split; assumption.
Qed.

(** X5. No price is made up on the live path. With provider answers that
    carry the price column, every column of the table [Finance.Prices]
    returns is named after a requested ticker that was fetched, and each
    of its cells is either missing or a value of that ticker's own
    'Adj. Close' series at a date of the period of its row. *)
Theorem live_values_come_from_provider
        (w : World) (tickers : list string)
        (start_date end_date : option Date) (freq : Freq)
        (log log' : list event) (P : DataFrame) :
  provider_ok w start_date end_date tickers ->
  Finance.Prices w tickers start_date end_date freq None log = (Ok P, log') ->
  forall name col,
    In (name, col) (columns P) ->
    In name tickers
    /\ exists df,
        fetch w start_date end_date name = Ok df
        /\ Forall2 (fun L c =>
                      c = NaN
                      \/ exists d, In (d, c) (price_series df)
                                   /\ bin_label freq d = L)
                   (index P) col.
Proof.
  intros Hok HP name col Hcol.
  rewrite Prices_live_run in HP by assumption.
  destruct (live_columns _ _ _ _ _ HP name col Hcol) as (s & Hs & Hall).
  apply collected_values in Hs as [[]|(Hname & df & Hdf & ->)].
  split; [exact Hname|]. exists df. split; assumption.
Qed.

Lemma live_values_come_from_provider_witness :
  In "AAPL"%string ["AAPL"; "ZZZZ"; "MSFT"]%string
  /\ exists df,
      fetch live_world None None "AAPL" = Ok df
      /\ Forall2 (fun L c =>
                    c = NaN
                    \/ exists d, In (d, c) (price_series df)
                                 /\ bin_label FreqD d = L)
                 (index live_prices) [num 100 1; num 110 1; num 99 1].
Proof.
  apply (live_values_come_from_provider
           live_world ["AAPL"; "ZZZZ"; "MSFT"]%string None None FreqD
           [] [warning "ZZZZ"] live_prices).
  - apply live_world_provider_ok.
  - vm_compute. reflexivity.
  - left. reflexivity.
Defined.

(** ** Every observation has its row *)

Lemma bin_label_mono (f : Freq) (d d' : Date) :
  d <= d' -> bin_label f d <= bin_label f d'.
Proof.
  intros H. destruct f; cbn [bin_label]; unfold weekday.
  - destruct (5 <=? d mod 7) eqn:E; destruct (5 <=? d' mod 7) eqn:E';
      rewrite ?Z.leb_le, ?Z.leb_gt in *;
      pose proof (Z.div_mod d 7 ltac:(lia));
      pose proof (Z.div_mod d' 7 ltac:(lia));
      pose proof (Z.mod_pos_bound d 7 ltac:(lia));
      pose proof (Z.mod_pos_bound d' 7 ltac:(lia)); lia.
  - exact H.
  - pose proof (Z.div_mod d 7 ltac:(lia));
      pose proof (Z.div_mod d' 7 ltac:(lia));
      pose proof (Z.mod_pos_bound d 7 ltac:(lia));
      pose proof (Z.mod_pos_bound d' 7 ltac:(lia)); lia.
Qed.

Lemma next_label_least (f : Freq) (l x : Date) :
  bin_label f l = l -> bin_label f x = x -> l < x -> next_label f l <= x.
Proof.
  destruct f.
  - rewrite !is_label_B. unfold weekday. cbn [next_label]. unfold weekday.
    intros Hl Hx Hlt.
    pose proof (Z.div_mod l 7 ltac:(lia));
      pose proof (Z.div_mod x 7 ltac:(lia));
      pose proof (Z.mod_pos_bound l 7 ltac:(lia));
      pose proof (Z.mod_pos_bound x 7 ltac:(lia)).
    destruct (l mod 7 =? 4) eqn:E; rewrite ?Z.eqb_eq, ?Z.eqb_neq in E; lia.
  - cbn [next_label]. lia.
  - rewrite !is_label_W. unfold weekday. cbn [next_label].
    intros Hl Hx Hlt.
    pose proof (Z.div_mod l 7 ltac:(lia));
      pose proof (Z.div_mod x 7 ltac:(lia)). lia.
Qed.

Lemma labels_from_complete (f : Freq) (hi x : Date) (n : nat) :
  forall l,
    bin_label f l = l -> bin_label f x = x -> l <= x <= hi ->
    (Z.to_nat (hi - l + 1) <= n)%nat ->
    In x (labels_from n f l hi).
Proof.
  induction n as [|n IH]; intros l Hl Hx Hb Hn; [lia|].
  cbn [labels_from]. replace (l <=? hi) with true by (symmetry; apply Z.leb_le; lia).
  destruct (Z.eq_dec l x) as [->|Hne]; [now left|right].
  pose proof (next_label_gt f l).
  apply IH; [now apply next_label_is_label|exact Hx| |lia].
  split; [apply next_label_least; auto; lia|lia].
Qed.

Lemma sorted_bounds (l : list Date) (d0 x : Date) :
  Sorted Z.le l -> In x l -> hd d0 l <= x <= last l d0.
Proof.
  intros Hs. apply Sorted_StronglySorted in Hs; [|exact Zle_transitive].
  induction Hs as [|a l Hl IH Ha]; intros Hx; [destruct Hx|].
  cbn [hd]. rewrite Forall_forall in Ha.
  destruct Hx as [<-|Hx].
  - split; [lia|]. destruct l as [|b l]; [cbn; lia|].
    change (last (a :: b :: l) d0) with (last (b :: l) d0).
    assert (In (last (b :: l) d0) (b :: l))
      by (clear; revert b; induction l as [|c l IH]; intros b;
          [now left|right; apply IH]).
    auto.
  - destruct l as [|b l]; [destruct Hx|].
    change (last (a :: b :: l) d0) with (last (b :: l) d0).
    specialize (IH Hx). cbn [hd] in IH.
    assert (a <= b) by (apply Ha; now left).
    destruct IH as [IH1 IH2]. split; [now apply Z.le_trans with b|exact IH2].
Qed.

Lemma period_labels_cover (f : Freq) (idx : list Date) (d : Date) :
  Sorted Z.le idx -> In d idx -> In (bin_label f d) (period_labels f idx).
Proof.
  intros Hs Hd. unfold period_labels.
  destruct idx as [|d0 rest] eqn:E; [destruct Hd|]. rewrite <- E in *.
  destruct (sorted_bounds idx d0 d Hs Hd) as [Hlo Hhi].
  assert (Hhd : hd d0 idx = d0) by now rewrite E.
  rewrite Hhd in Hlo.
  apply labels_from_complete; try apply bin_label_idem; [|lia].
  split; now apply bin_label_mono.
Qed.

Lemma In_dedup (x : Date) (l : list Date) : In x (dedup l) <-> In x l.
Proof.
  induction l as [|a l IH]; cbn [dedup In]; [tauto|].
  rewrite filter_In, IH, negb_true_iff, Z.eqb_neq.
  destruct (Z.eq_dec a x); intuition.
Qed.

Lemma dict_set_has (k : string) (v : Series) (d : dict) :
  In (k, v) (dict_set k v d).
Proof.
  induction d as [|[k0 v0] d IH]; cbn [dict_set]; [now left|].
  destruct (String.eqb k0 k); [now left|now right].
Qed.

Lemma dict_set_keeps (k k' : string) (v v' : Series) (d : dict) :
  In (k', v') d -> k' <> k \/ v' = v -> In (k', v') (dict_set k v d).
Proof.
  intros Hin Hk. induction d as [|[k0 v0] d IH]; [destruct Hin|].
  cbn [dict_set]. destruct (String.eqb k0 k) eqn:E.
  - apply String.eqb_eq in E. subst k0.
    destruct Hin as [H|H]; [|now right].
    injection H as <- <-. destruct Hk as [Hk| ->]; [congruence|now left].
  - destruct Hin as [H|H]; [now left|right; auto].
Qed.

Lemma collected_has (w : World) (s e : option Date) (tickers : list string)
      (t : string) (df : DataFrame) :
  fetch w s e t = Ok df ->
  forall data,
    In t tickers \/ In (t, price_series df) data ->
    In (t, price_series df) (collected w s e tickers data).
Proof.
  intros Hfetch. induction tickers as [|t0 ts IH]; intros data H.
  - destruct H as [[]|H]. exact H.
  - cbn [collected]. destruct (fetch w s e t0) as [df0|ex] eqn:E.
    + apply IH. destruct H as [[->|H]|H].
      * right. rewrite Hfetch in E. injection E as <-. apply dict_set_has.
      * now left.
      * right. apply dict_set_keeps; [exact H|].
        destruct (string_dec t t0) as [->|Hne]; [|now left].
        right. rewrite Hfetch in E. now injection E as <-.
    + apply IH. destruct H as [[->|H]|H]; [congruence|now left|now right].
Qed.

(** X6. No observation is lost to the calendar on the live path. With
    provider answers that carry the price column, for every requested
    ticker that was fetched and every date of its 'Adj. Close' series,
    the period of that date is a row of the table [Finance.Prices]
    returns. *)
Theorem every_observation_has_its_row
        (w : World) (tickers : list string)
        (start_date end_date : option Date) (freq : Freq)
        (log log' : list event) (P : DataFrame) :
  provider_ok w start_date end_date tickers ->
  Finance.Prices w tickers start_date end_date freq None log = (Ok P, log') ->
  forall t df d c,
    In t tickers ->
    fetch w start_date end_date t = Ok df ->
    In (d, c) (price_series df) ->
    In (bin_label freq d) (index P).
Proof.
  intros Hok HP t df d c Ht Hdf Hd.
  rewrite Prices_live_run in HP by assumption.
  pose proof (resample_dict_nonempty _ _ _ _ _ HP) as Hne.
  apply resample_last_Ok in HP as (_ & _ & _ & -> & _).
  apply period_labels_cover.
  - unfold sort_index. cbn [index]. apply sort_rows_sorted.
  - apply In_sorted_index. rewrite (dict_frame_nonempty _ Hne).
    cbn [index]. apply In_dedup, in_flat_map.
    exists (t, price_series df). split.
    + apply collected_has; [exact Hdf|now left].
    + cbn [snd]. apply in_map_iff. exists (d, c). split; [reflexivity|exact Hd].
Qed.

Lemma every_observation_has_its_row_witness :
  In (bin_label FreqD 1) (index live_prices).
Proof.
  apply (every_observation_has_its_row
           live_world ["AAPL"; "ZZZZ"; "MSFT"]%string None None FreqD
           [] [warning "ZZZZ"] live_prices
           (live_world_provider_ok _)
           ltac:(vm_compute; reflexivity)
           "AAPL"%string aapl_frame 1 (num 110 1)).
  - left. reflexivity.
  - reflexivity.
  - right. left. reflexivity.
Defined.

(** ** The log of the market data and the failures of VAR *)

Lemma fetch_all_log (w : World) (s e : option Date) (tickers : list string) :
  forall (data : dict) (log : list event),
    exists failed,
      snd (Finance.fetch_all w tickers s e data log)
      = log ++ map warning failed
      /\ incl failed tickers.
Proof.
  induction tickers as [|t ts IH]; intros data log.
  - exists []. cbn. split; [now rewrite app_nil_r|apply incl_refl].
  - cbn [Finance.fetch_all]. unfold bind at 1. rewrite _get_run.
    destruct (fetch w s e t) as [df|ex].
    + unfold bind at 1.
      destruct (getitem df Finance._col log) as [[col|ex] log2] eqn:G.
      * assert (log2 = log) as ->.
        { unfold getitem in G. destruct (find _ _); inversion G; auto. }
        destruct (IH (dict_set t col data) log) as (failed & E & Hi).
        exists failed. split; [exact E|now apply incl_tl].
      * assert (log2 = log) as ->.
        { unfold getitem in G. destruct (find _ _); inversion G; auto. }
        exists []. cbn. split; [now rewrite app_nil_r|intros x []].
    + destruct (IH data (log ++ [warning t])) as (failed & E & Hi).
      exists (t :: failed). split.
      * rewrite E. cbn [map]. now rewrite <- app_assoc.
      * intros x [<-|Hx]; [now left|right; auto].
Qed.

Lemma Finance_Returns_log (w : World) (tickers : list string)
      (s e : option Date) (f : Freq) (csv : option string)
      (log : list event) :
  exists failed,
    snd (Finance.Returns w tickers s e f csv log) = log ++ map warning failed
    /\ incl failed tickers.
Proof.
  destruct csv as [root|].
  - exists []. rewrite Returns_cache_run, app_nil_r.
    split; [now destruct (read_csv w root)|intros x []].
  - destruct (fetch_all_log w s e tickers [] log) as (failed & E & Hi).
    exists failed. split; [|exact Hi].
    unfold Finance.Returns, Finance.Prices, bind.
    destruct (Finance.fetch_all w tickers s e [] log) as [[data|ex] log1];
      cbn [snd] in E; subst log1; [|reflexivity].
    unfold resample_last. destruct (datetime_index _); reflexivity.
Qed.

(** X7. No data, no simulation. When [Finance.Returns] fails, or when
    cleaning its table fails, [VAR.Returns] and [VAR.Prices] fail with
    that very exception, and the log has gained nothing but warnings of
    failed fetches of requested tickers: the simulator was not called. *)
Theorem no_data_no_simulation
        (w : World) (tickers : list string)
        (start_date end_date : option Date) (freq : Freq)
        (csv : option string) (model_order : Z) (return_params : bool)
        (log log1 : list event) (ex : exn) :
  Finance.Returns w tickers start_date end_date freq csv log
  = (Raise ex, log1)
  \/ (exists realized,
         Finance.Returns w tickers start_date end_date freq csv log
         = (Ok realized, log1)
         /\ clean w realized = Raise ex) ->
  VAR.Returns w tickers start_date end_date freq csv model_order
              return_params log
  = (Raise ex, log1)
  /\ VAR.Prices w tickers start_date end_date freq csv model_order
                return_params log
     = (Raise ex, log1)
  /\ exists failed, log1 = log ++ map warning failed /\ incl failed tickers.
Proof.
  intros H.
  assert (Hret : forall rp,
             VAR.Returns w tickers start_date end_date freq csv model_order
                         rp log
             = (Raise ex, log1)).
  { intros rp. unfold VAR.Returns.
    destruct H as [H|(realized & H & Hclean)].
    - now apply bind_Raise.
    - rewrite (bind_Ok _ _ _ _ _ H). unfold bind, lift. now rewrite Hclean. }
  split; [apply Hret|]. split.
  - destruct return_params; unfold VAR.Prices; now apply bind_Raise.
  - destruct (Finance_Returns_log w tickers start_date end_date freq csv log)
      as (failed & E & Hi).
    exists failed. split; [|exact Hi].
    destruct H as [H|(realized & H & _)]; now rewrite H in E.
Qed.

Lemma no_data_no_simulation_witness :
  VAR.Returns live_world ["ZZZZ"]%string None None FreqB None 2 false []
  = (Raise TypeError, [warning "ZZZZ"])
  /\ VAR.Prices live_world ["ZZZZ"]%string None None FreqB None 2 false []
     = (Raise TypeError, [warning "ZZZZ"])
  /\ exists failed,
      [warning "ZZZZ"] = [] ++ map warning failed
      /\ incl failed ["ZZZZ"]%string.
Proof.
  apply (no_data_no_simulation
           live_world ["ZZZZ"]%string None None FreqB None 2 false []
           [warning "ZZZZ"] TypeError).
  left. reflexivity.
Defined.

(** X8. [return_params] only adds the parameters. The table
    [VAR.Returns], and [VAR.Prices], gives without the flag is the table
    it gives with it, with the same failure otherwise and the same log;
    and [VAR.Prices] leaves the log of [VAR.Returns] as it is, so it
    calls the simulator once, through [VAR.Returns]. *)
Theorem return_params_only_adds_params
        (w : World) (tickers : list string)
        (start_date end_date : option Date) (freq : Freq)
        (csv : option string) (model_order : Z) (log : list event) :
  VAR.Returns w tickers start_date end_date freq csv model_order false log
  = match VAR.Returns w tickers start_date end_date freq csv model_order
                      true log with
    | (Ok (sim_df, _), log1) => (Ok sim_df, log1)
    | (Raise ex, log1) => (Raise ex, log1)
    end
  /\ VAR.Prices w tickers start_date end_date freq csv model_order false log
     = match VAR.Prices w tickers start_date end_date freq csv model_order
                        true log with
       | (Ok (prices, _), log1) => (Ok prices, log1)
       | (Raise ex, log1) => (Raise ex, log1)
       end
  /\ forall return_params,
      snd (VAR.Prices w tickers start_date end_date freq csv model_order
                      return_params log)
      = snd (VAR.Returns w tickers start_date end_date freq csv model_order
                         return_params log).
Proof.
  assert (Hret :
            VAR.Returns w tickers start_date end_date freq csv model_order
                        false log
            = match VAR.Returns w tickers start_date end_date freq csv
                                model_order true log with
              | (Ok (sim_df, _), log1) => (Ok sim_df, log1)
              | (Raise ex, log1) => (Raise ex, log1)
              end).
  { unfold VAR.Returns, bind, lift, emit, ret.
    destruct (Finance.Returns w tickers start_date end_date freq csv log)
      as [[realized|ex] log1]; [|reflexivity].
    destruct (clean w realized) as [df|ex]; [|reflexivity].
    destruct (_VAR w df model_order) as [[sim model]|ex]; reflexivity. }
  split; [exact Hret|]. split.
  - unfold VAR.Prices. unfold bind at 1 3. rewrite Hret.
    destruct (VAR.Returns w tickers start_date end_date freq csv model_order
                          true log) as [[[sim pars]|ex] log1];
      [|reflexivity].
    unfold bind, lift, ret. destruct (clean w sim); reflexivity.
  - intros [|]; unfold VAR.Prices; unfold bind at 1.
    + destruct (VAR.Returns w tickers start_date end_date freq csv
                            model_order true log) as [[[sim pars]|ex] log1];
        [|reflexivity].
      unfold bind, lift, ret. destruct (clean w sim); reflexivity.
    + destruct (VAR.Returns w tickers start_date end_date freq csv
                            model_order false log) as [[sim|ex] log1];
        [|reflexivity].
      unfold bind, lift, ret. cbn [VAR.output] in *.
      destruct (clean w sim); reflexivity.
Qed.

(** ** From returns to prices and back *)










(** ** Finance.SP500 *)

Lemma filter_named (t : TextTable) (n : string) (col : list string) :
  NoDup (map fst t) -> In (n, col) t ->
  filter (fun nc => String.eqb (fst nc) n) t = [(n, col)].
Proof.
  induction t as [|[n0 c0] t IH]; intros Hnd Hin; [destruct Hin|].
  cbn [map fst] in Hnd. inversion Hnd as [|? ? Hn0 Ht]; subst.
  cbn [filter fst]. destruct (String.eqb n0 n) eqn:E.
  - apply String.eqb_eq in E. subst n0.
    destruct Hin as [H|H].
    + injection H as ->. f_equal. apply filter_nothing.
      intros [n1 c1] H1. cbn [fst]. apply String.eqb_neq. intros ->.
      apply Hn0. apply in_map_iff. now exists (n, c1).
    + exfalso. apply Hn0. apply in_map_iff. now exists (n, col).
  - apply String.eqb_neq in E. destruct Hin as [H|H]; [congruence|auto].
Qed.

Lemma has_named (t : TextTable) (n : string) (col : list string) :
  In (n, col) t -> existsb (fun nc => String.eqb (fst nc) n) t = true.
Proof.
  intros H. apply existsb_exists. exists (n, col).
  split; [exact H|apply String.eqb_refl].
Qed.

(** X10. Without prices, [SP500] only reads the page: when the first table
    of the page has the columns 'Ticker symbol', 'Security' and
    'GICS Sector', the answer is the listing indexed by the tickers with
    the columns Security and GICS Sector, in that order, whatever else
    the table holds and whatever the order of its columns; nothing is
    logged and the other arguments play no part. *)
Theorem SP500_listing
        (web : Web) (w : World)
        (start_date end_date : option Date) (freq : Freq)
        (csv : option string) (log : list event)
        (page : TextTable) (others : list TextTable)
        (symbols securities sectors : list string) :
  read_html web sp500_url = Ok (page :: others) ->
  NoDup (map fst page) ->
  In ("Ticker symbol"%string, symbols) page ->
  In ("Security"%string, securities) page ->
  In ("GICS Sector"%string, sectors) page ->
  SP500 web w false start_date end_date freq csv log
  = (Ok (mkListing symbols
                   [("Security"%string, securities);
                    ("GICS Sector"%string, sectors)]),
     log).
Proof.
  intros Hread Hnd Hsym Hsec Hgics.
  unfold SP500, bind, lift, first_table, ret. rewrite Hread.
  unfold select_text. cbn [forallb].
  rewrite (has_named _ _ _ Hsym), (has_named _ _ _ Hsec),
    (has_named _ _ _ Hgics).
  cbn [andb flat_map]. unfold ret.
  rewrite (filter_named _ _ _ Hnd Hsym), (filter_named _ _ _ Hnd Hsec),
    (filter_named _ _ _ Hnd Hgics).
  reflexivity.
Qed.

Lemma SP500_listing_witness :
  SP500 sp500_web cache_world false (Some 1) None FreqW
        (Some "prices.csv"%string) []
  = (Ok (mkListing ["AAPL"; "MSFT"]%string
                   [("Security"%string,
                     ["Apple Inc."; "Microsoft Corp."]%string);
                    ("GICS Sector"%string,
                     ["Information Technology";
                      "Information Technology"]%string)]),
     []).
Proof.
  apply (SP500_listing sp500_web cache_world (Some 1) None FreqW
                       (Some "prices.csv"%string) [] sp500_page []).
  - reflexivity.
  - repeat constructor; cbn; intuition discriminate.
  - now left.
  - right. now left.
  - right. right. right. now left.
Defined.

Lemma SP500_run (web : Web) (w : World) (b : bool)
      (s e : option Date) (f : Freq) (csv : option string)
      (log : list event) :
  match SP500 web w false s e f csv log with
  | (Ok l, log0) =>
      log0 = log
      /\ SP500 web w b s e f csv log
         = match b as b0 return M (SP500_output b0) with
           | true =>
               prices <- Finance.Prices w (listing_index l) s e f csv ;;
               ret (l, prices, df_tail (df_pct_change prices))
           | false => ret l
           end log
  | (Raise ex, log0) =>
      log0 = log /\ SP500 web w b s e f csv log = (Raise ex, log)
  end.
Proof.
  unfold SP500, bind, lift, first_table, select_text, set_index, ret, raise.
  destruct (read_html web sp500_url) as [[|page others]|ex]; auto.
  destruct (forallb _ _); auto.
  destruct (find _ _) as [nc|]; auto.
Qed.

(** X11. With prices, [SP500] is its listing followed by [Finance.Prices]
    on the tickers of the listing: the prices are those of
    [Finance.Prices], with its log, and the returns are the percentage
    changes of these prices without their first row. Without a cache these
    are the returns of [Finance.Returns]; with a cache [Finance.Returns]
    answers the cached table itself, which [SP500] gives as prices. *)
Theorem SP500_prices_and_returns
        (web : Web) (w : World)
        (start_date end_date : option Date) (freq : Freq)
        (csv : option string) (log log' : list event)
        (sp500 : Listing) (prices returns : DataFrame) :
  SP500 web w true start_date end_date freq csv log
  = (Ok (sp500, prices, returns), log') ->
  SP500 web w false start_date end_date freq csv log = (Ok sp500, log)
  /\ Finance.Prices w (listing_index sp500) start_date end_date freq csv log
     = (Ok prices, log')
  /\ returns = df_tail (df_pct_change prices)
  /\ (csv = None ->
      Finance.Returns w (listing_index sp500) start_date end_date freq None
                      log
      = (Ok returns, log'))
  /\ (forall root,
         csv = Some root ->
         Finance.Returns w (listing_index sp500) start_date end_date freq
                         (Some root) log
         = (Ok prices, log')).
Proof.
  intros Hrun.
  pose proof (SP500_run web w true start_date end_date freq csv log) as H.
  destruct (SP500 web w false start_date end_date freq csv log)
    as [[l|ex] log0]; destruct H as [-> H]; rewrite H in Hrun;
    [|discriminate].
  unfold bind, ret in Hrun.
  destruct (Finance.Prices w (listing_index l) start_date end_date freq csv log)
    as [[P|ex] log1] eqn:HP; [|discriminate].
  injection Hrun as -> -> <- ->.
  split; [reflexivity|]. split; [exact HP|]. split; [reflexivity|]. split.
  - intros ->. now apply Returns_live_Ok.
  - intros root ->. rewrite Returns_cache_run.
    now rewrite Prices_cache_run in HP.
Qed.

Lemma SP500_prices_and_returns_witness :
  SP500 sp500_web live_world false None None FreqD None []
  = (Ok (mkListing ["AAPL"; "MSFT"]%string
                   [("Security"%string,
                     ["Apple Inc."; "Microsoft Corp."]%string);
                    ("GICS Sector"%string,
                     ["Information Technology";
                      "Information Technology"]%string)]),
     [])
  /\ Finance.Prices live_world ["AAPL"; "MSFT"]%string None None FreqD None []
     = (Ok live_prices, [])
  /\ df_tail (df_pct_change live_prices) = df_tail (df_pct_change live_prices)
  /\ (@None string = None ->
      Finance.Returns live_world ["AAPL"; "MSFT"]%string None None FreqD None []
      = (Ok (df_tail (df_pct_change live_prices)), []))
  /\ (forall root,
         @None string = Some root ->
         Finance.Returns live_world ["AAPL"; "MSFT"]%string None None FreqD
                         (Some root) []
         = (Ok live_prices, [])).
Proof.
  apply (SP500_prices_and_returns
           sp500_web live_world None None FreqD None [] []
           (mkListing ["AAPL"; "MSFT"]%string
                      [("Security"%string,
                        ["Apple Inc."; "Microsoft Corp."]%string);
                       ("GICS Sector"%string,
                        ["Information Technology";
                         "Information Technology"]%string)])
           live_prices (df_tail (df_pct_change live_prices))).
  vm_compute. reflexivity.
Defined.

(** X12. [SP500] fails before any price is fetched when the page is not
    what it expects, and fails with [Finance.Prices] otherwise: a first
    table without one of the three columns gives [KeyError] with the log
    untouched, with or without prices; and when the listing is built and
    [Finance.Prices] raises on its tickers, [SP500] with prices raises
    the same exception after the same log. *)
Theorem SP500_failures
        (web : Web) (w : World)
        (start_date end_date : option Date) (freq : Freq)
        (csv : option string) (log : list event) :
  (forall page others name,
      read_html web sp500_url = Ok (page :: others) ->
      In name ["Ticker symbol"; "Security"; "GICS Sector"]%string ->
      ~ In name (map fst page) ->
      forall b,
        SP500 web w b start_date end_date freq csv log = (Raise KeyError, log))
  /\ (forall sp500 ex log',
         SP500 web w false start_date end_date freq csv log = (Ok sp500, log) ->
         Finance.Prices w (listing_index sp500) start_date end_date freq csv
                        log
         = (Raise ex, log') ->
         SP500 web w true start_date end_date freq csv log = (Raise ex, log')).
Proof.
  split.
  - intros page others name Hread Hname Hmissing b.
    unfold SP500, bind, lift, first_table, ret. rewrite Hread.
    unfold select_text.
    replace (forallb _ _) with false; [reflexivity|].
    symmetry. apply not_true_is_false. intros H.
    rewrite forallb_forall in H. specialize (H name Hname).
    apply existsb_exists in H as ([n c] & Hin & E).
    apply String.eqb_eq in E. cbn [fst] in E. subst n.
    apply Hmissing, in_map_iff. now exists (name, c).
  - intros sp500 ex log' Hl HP.
    pose proof (SP500_run web w true start_date end_date freq csv log) as H.
    rewrite Hl in H. destruct H as [_ ->].
    now apply bind_Raise.
Qed.

Lemma SP500_failures_witness :
  (forall b,
      SP500 broken_web live_world b None None FreqB None []
      = (Raise KeyError, []))
  /\ SP500 sp500_web cache_world true None None FreqB None []
     = (Raise TypeError, [warning "AAPL"; warning "MSFT"]).
Proof.
  split.
  - apply (proj1 (SP500_failures broken_web live_world None None FreqB None [])
                 [("Ticker symbol"%string, ["AAPL"]%string);
                  ("Security"%string, ["Apple Inc."]%string)]
                 [] "GICS Sector"%string).
    + reflexivity.
    + right. right. now left.
    + cbn. intuition discriminate.
  - apply (proj2 (SP500_failures sp500_web cache_world None None FreqB None [])
                 (mkListing ["AAPL"; "MSFT"]%string
                            [nth 1 sp500_page (""%string, []);
                             nth 3 sp500_page (""%string, [])])).
    + reflexivity.
    + reflexivity.
Defined.

(** ** The order of the live columns *)

Lemma dict_set_new_key (k : string) (v : Series) (d : dict) :
  ~ In k (map fst d) -> map fst (dict_set k v d) = map fst d ++ [k].
Proof.
  induction d as [|[k0 v0] d IH]; cbn [dict_set map fst app In]; intros H.
  - reflexivity.
  - destruct (String.eqb k0 k) eqn:E.
    + apply String.eqb_eq in E. tauto.
    + cbn [map fst]. f_equal. apply IH. tauto.
Qed.

Lemma collected_keys_order (w : World) (s e : option Date)
      (tickers : list string) :
  forall data,
    NoDup (map fst data ++ tickers) ->
    map fst (collected w s e tickers data)
    = map fst data ++ filter (fetch_ok w s e) tickers.
Proof.
  induction tickers as [|t ts IH]; intros data Hnd.
  - cbn. now rewrite app_nil_r.
  - cbn [collected filter]. unfold fetch_ok.
    destruct (fetch w s e t) as [df|ex].
    + rewrite IH.
      * rewrite dict_set_new_key; [now rewrite <- app_assoc|].
        apply NoDup_remove_2 in Hnd. intros H. apply Hnd.
        apply in_or_app. now left.
      * rewrite dict_set_new_key.
        -- now rewrite <- app_assoc.
        -- apply NoDup_remove_2 in Hnd. intros H. apply Hnd.
           apply in_or_app. now left.
    + apply IH. now apply NoDup_remove_1 in Hnd.
Qed.

(** X13. On the live path the columns follow the request: with provider
    answers that carry the price column and a request without repeated
    tickers, the columns of the table [Finance.Prices] returns are the
    tickers whose fetch succeeded, in the order of the request. *)
Theorem live_columns_in_request_order
        (w : World) (tickers : list string)
        (start_date end_date : option Date) (freq : Freq)
        (log log' : list event) (P : DataFrame) :
  provider_ok w start_date end_date tickers ->
  NoDup tickers ->
  Finance.Prices w tickers start_date end_date freq None log = (Ok P, log') ->
  colnames P = filter (fetch_ok w start_date end_date) tickers.
Proof.
  intros Hok Hnd HP. rewrite Prices_live_run in HP by assumption.
  apply resample_last_Ok in HP as (Hdt & _ & _ & _ & ->).
  rewrite (dict_frame_datetime _ Hdt).
  now rewrite collected_keys_order.
Qed.

Lemma live_columns_in_request_order_witness :
  colnames live_prices
  = filter (fetch_ok live_world None None) ["AAPL"; "ZZZZ"; "MSFT"]%string.
Proof.
  apply (live_columns_in_request_order
           live_world ["AAPL"; "ZZZZ"; "MSFT"]%string None None FreqD
           [] [warning "ZZZZ"] live_prices).
  - apply live_world_provider_ok.
  - repeat constructor; cbn; intuition discriminate.
  - vm_compute. reflexivity.
Defined.

(** X14. With a cache the provider is never consulted: the outcome of
    [Finance.Prices] and of [Finance.Returns] is the same in two worlds
    that read the same file, whatever their providers answer, and the log
    is left as it is; when the file cannot be read the call fails with
    the exception of the read, without turning to the provider. *)
Theorem cache_never_consults_provider
        (w w' : World) (tickers : list string)
        (start_date end_date : option Date) (freq : Freq)
        (root : string) (log : list event) :
  read_csv w root = read_csv w' root ->
  Finance.Prices w tickers start_date end_date freq (Some root) log
  = Finance.Prices w' tickers start_date end_date freq (Some root) log
  /\ Finance.Returns w tickers start_date end_date freq (Some root) log
     = Finance.Returns w' tickers start_date end_date freq (Some root) log
  /\ snd (Finance.Prices w tickers start_date end_date freq (Some root) log)
     = log
  /\ forall ex,
      read_csv w root = Raise ex ->
      Finance.Prices w tickers start_date end_date freq (Some root) log
      = (Raise ex, log)
      /\ Finance.Returns w tickers start_date end_date freq (Some root) log
         = (Raise ex, log).
Proof.
  intros H. rewrite !Prices_cache_run, !Returns_cache_run, <- H.
  split; [reflexivity|]. split; [reflexivity|]. split.
  - now destruct (read_csv w root).
  - intros ex ->. auto.
Qed.

Lemma cache_never_consults_provider_witness :
  Finance.Prices cache_world ["A"]%string None None FreqB
                 (Some "missing.csv"%string) []
  = Finance.Prices live_world ["A"]%string None None FreqB
                   (Some "missing.csv"%string) []
  /\ Finance.Returns cache_world ["A"]%string None None FreqB
                     (Some "missing.csv"%string) []
     = Finance.Returns live_world ["A"]%string None None FreqB
                       (Some "missing.csv"%string) []
  /\ snd (Finance.Prices cache_world ["A"]%string None None FreqB
                         (Some "missing.csv"%string) [])
     = []
  /\ forall ex,
      read_csv cache_world "missing.csv" = Raise ex ->
      Finance.Prices cache_world ["A"]%string None None FreqB
                     (Some "missing.csv"%string) []
      = (Raise ex, [])
      /\ Finance.Returns cache_world ["A"]%string None None FreqB
                         (Some "missing.csv"%string) []
         = (Raise ex, []).
Proof.
  apply (cache_never_consults_provider
           cache_world live_world ["A"]%string None None FreqB
           "missing.csv"%string []).
  reflexivity.
Defined.

(** ** The daily table *)









(** ** Further witnesses and the round trip of SP500 *)

Lemma missing_price_column_raises_KeyError_witness :
  Finance.Prices bad_world
                 (["ZZZZ"%string] ++ "BAD"%string :: ["AAPL"%string])
                 None None FreqB None []
  = (Raise KeyError, [] ++ warnings bad_world None None ["ZZZZ"%string]).
Proof.
  apply (missing_price_column_raises_KeyError
           bad_world ["ZZZZ"]%string ["AAPL"]%string "BAD"%string
           None None FreqB []
           (mkDF true [0; 1] [("Close"%string, [num 10 1; num 11 1])])).
  - intros t df [<-|[]] E. discriminate E.
  - reflexivity.
  - reflexivity.
Defined.

Lemma live_table_well_formed_witness :
  datetime_index live_prices = true
  /\ rectangular live_prices
  /\ NoDup (colnames live_prices)
  /\ forall t, In t (colnames live_prices) ->
               In t ["AAPL"; "MSFT"; "AAPL"]%string.
Proof.
  apply (live_table_well_formed
           live_world ["AAPL"; "MSFT"; "AAPL"]%string None None FreqD
           [] [] live_prices).
  vm_compute. reflexivity.
Defined.


